(** * The property recommendation endpoint of [backend/main.py]

    A shallow embedding of the FastAPI handler [recommend_properties]
    (filter the property table, score the survivors with the loaded model
    bundle, rank, present), together with the start-up routine [lifespan]
    that fills the two process-wide globals.

    Modelling conventions.
    - Python integers are [Z].  A finite float is held by its exact
      rational value; the float arithmetic of the handler itself, the
      product by 100 and [round], is IEEE 754 binary64: rounded to the
      nearest double, overflowing to an infinity ([PyFloat], [to_double]).
    - A pandas DataFrame is the list of its rows in index order; the columns
      the handler names are record fields, every other column of the CSV is
      kept in a finite map from column name to value.  A table has the same
      columns in all its rows.
    - DataFrames are mutable objects: they live in a [heap] and are handled
      through their locations, so that [property_data.copy()], the
      allocation done by every boolean-mask selection and the in-place
      column assignment [df['score'] = preds] are all visible.
    - Exceptions are explicit: every operation returns an [Outcome].
    - The state carries a [trace] of the operations performed so far,
      beside the heap and the two globals, so that "this step was never
      reached" is a statement about the final state.
    - The scaler and the model of the bundle are opaque callables, possibly
      raising.  [DataFrame.sort_values] is taken through its documented
      interface (class [PandasSort]): the handler is verified for every
      sorting routine that meets it. *)

From Stdlib Require Import ZArith QArith Qround Qabs Qpower String List Lia Lqa.
From Stdlib Require Import Sorting.Permutation Sorting.Sorted.
From stdpp Require Import base list strings gmap pretty sorting.

Local Close Scope Q_scope.
Local Open Scope string_scope.
Local Open Scope list_scope.
Local Open Scope Z_scope.

(** ** Python values, rows and tables *)

Inductive Value :=
| VInt (z : Z)
| VFloat (q : Q)
| VStr (s : string)
| VBool (b : bool).

(** One row of the property table.  The nine columns that the handler reads
    by name are fields; [row_extra] holds the remaining columns (the ones
    only the model consumes, and later the [score] column). *)
Record Row := mkRow {
  row_property_id : string;
  row_address : string;
  row_price : Z;
  row_bedrooms : Z;
  row_commute_time_min : Z;
  row_school_rating : Z;
  row_has_pool : bool;
  row_garage_spaces : Z;
  row_city : string;
  row_extra : gmap string Value
}.

Abbreviation DataFrame := (list Row).

(** [row[c]]: the value of column [c], if the table has that column. *)
Definition row_get (c : string) (r : Row) : option Value :=
  if String.eqb c "property_id" then Some (VStr (row_property_id r))
  else if String.eqb c "address" then Some (VStr (row_address r))
  else if String.eqb c "price" then Some (VInt (row_price r))
  else if String.eqb c "bedrooms" then Some (VInt (row_bedrooms r))
  else if String.eqb c "commute_time_min" then Some (VInt (row_commute_time_min r))
  else if String.eqb c "school_rating" then Some (VInt (row_school_rating r))
  else if String.eqb c "has_pool" then Some (VBool (row_has_pool r))
  else if String.eqb c "garage_spaces" then Some (VInt (row_garage_spaces r))
  else if String.eqb c "city" then Some (VStr (row_city r))
  else row_extra r !! c.

(** The effect of [df['score'] = preds] on one row. *)
Definition row_set_score (p : Q) (r : Row) : Row :=
  mkRow (row_property_id r) (row_address r) (row_price r) (row_bedrooms r)
        (row_commute_time_min r) (row_school_rating r) (row_has_pool r)
        (row_garage_spaces r) (row_city r)
        (<["score" := VFloat p]> (row_extra r)).

(** ** Python floats (lines 107-119)

    A Python float is an IEEE 754 binary64 number.  A finite one is held by
    its exact rational value: the floats that the table and the model hand
    over ([VFloat], the entries of a [Matrix], the predictions) are finite
    and given this way.  The table has string columns, so the rows that
    [iterrows] hands out hold Python floats, and the two float operations
    of the handler itself, the product [row['score'] * 100] and
    [round(_, 2)], are Python's: they round their exact result to the
    nearest double, ties to even, and overflow to an infinity.  The sign of
    a zero is not kept. *)

Inductive PyFloat :=
| Finite (q : Q)
| PosInf
| NegInf
| NaN.

(** Round half to even. *)
Definition round_half_even (x : Q) : Z :=
  let f := Qfloor x in
  match (x - inject_Z f ?= 1 # 2)%Q with
  | Lt => f
  | Gt => f + 1
  | Eq => if Z.even f then f else f + 1
  end.

(** The integer part of the binary logarithm of a positive rational. *)
Definition ilog2 (q : Q) : Z :=
  let k := Z.log2 (Qnum q) - Z.log2 (Z.pos (Qden q)) in
  if Qle_bool (2 ^ k) q then k else k - 1.

(** The exponent of the binade of [q] in binary64: the one of [q] itself,
    or the one of the subnormal numbers. *)
Definition binade (q : Q) : Z := Z.max (ilog2 (Qabs q)) (-1022).

(** The multiple of the spacing of the doubles around [q] (53 significant
    bits) that is nearest to [q], ties to even. *)
Definition nearest (q : Q) : Q :=
  (inject_Z (round_half_even (q * 2 ^ (52 - binade q))) * 2 ^ (binade q - 52))%Q.

(** From the largest binade on, the result is an infinity. *)
Definition classify (r : Q) : PyFloat :=
  if Qle_bool (2 ^ 1024) (Qabs r)
  then (if Qle_bool 0 r then PosInf else NegInf)
  else Finite r.

(** The double nearest to a rational, in lowest terms. *)
Definition to_double (q : Q) : PyFloat :=
  classify (Qred (if Qeq_bool q 0 then 0 else nearest q)).

(** [a * b] on two finite floats. *)
Definition float_mul (a b : Q) : PyFloat := to_double (a * b).

(** The order of the floats, infinities included; a NaN compares with
    nothing. *)
Definition float_le (a b : PyFloat) : Prop :=
  match a, b with
  | NaN, _ | _, NaN => False
  | NegInf, _ | _, PosInf => True
  | _, NegInf | PosInf, _ => False
  | Finite x, Finite y => (x <= y)%Q
  end.

Fixpoint pow10 (n : nat) : positive :=
  match n with
  | O => 1%positive
  | S n' => (10 * pow10 n')%positive
  end.

(** [round(x, ndigits)] for a float [x] and [ndigits >= 0]: the exact value
    of [x] is rounded, half to even, to a multiple of [10 ** -ndigits], and
    the double nearest to that decimal number is the result.  Infinities
    and NaN are returned as they are. *)
Definition py_round (x : PyFloat) (ndigits : nat) : PyFloat :=
  match x with
  | Finite q =>
      to_double (round_half_even (q * (Z.pos (pow10 ndigits) # 1)) # pow10 ndigits)
  | _ => x
  end.

(** ** Exceptions *)

(** [KeyError key] is the exception of a failed lookup of [key] in a
    dictionary or in a row.  [LabelsNotInIndex] is the [KeyError] pandas
    raises when labels of a selection are no columns of the table; its
    message, which pandas composes from the labels, is not modelled. *)
Inductive Exn :=
| HTTPException (status_code : Z) (detail : string)
| KeyError (key : string)
| LabelsNotInIndex
| IndexError
| ValueError
| AttributeError
| ModelError (msg : string).

Inductive Outcome (A : Type) :=
| Return (a : A)
| Raise (e : Exn).
Arguments Return {A} a.
Arguments Raise {A} e.

Definition obind {A B} (o : Outcome A) (k : A -> Outcome B) : Outcome B :=
  match o with
  | Return a => k a
  | Raise e => Raise e
  end.

Fixpoint omapM {A B} (f : A -> Outcome B) (l : list A) : Outcome (list B) :=
  match l with
  | [] => Return []
  | x :: l' =>
      obind (f x) (fun y => obind (omapM f l') (fun ys => Return (y :: ys)))
  end.

(** ** The model bundle (lines 19, 33, 103-107) *)

Abbreviation Matrix := (list (list Q)).

(** [scaler.transform]: from the selected columns to the feature matrix. *)
Record Scaler := mkScaler {
  transform : list (list Value) -> Outcome Matrix
}.

(** A model always has [predict]; [hasattr(model, 'predict_proba')] is
    [predict_proba = Some _]. *)
Record Model := mkModel {
  predict_proba : option (Matrix -> Outcome Matrix);
  predict : Matrix -> Outcome (list Q)
}.

(** The dictionary unpickled at start-up, with its three keys; a key that
    is not in the dictionary is [None]. *)
Record Bundle := mkBundle {
  bundle_model : option Model;
  bundle_scaler : option Scaler;
  bundle_features : option (list string)
}.

(** [model_bundle = {}] (line 19). *)
Definition empty_bundle : Bundle := mkBundle None None None.

(** ** Request and response models (lines 52-76) *)

Record UserPreferences := mkPrefs {
  budget_min : Z;
  budget_max : Z;
  city : option string;
  min_bedrooms : Z;
  max_commute_time_minutes : Z;
  min_school_rating : Z;
  must_have_features : list string;
  lifestyle_preferences : list string;
  size_preference : string;
  min_garage_spaces : Z
}.

Definition default_preferences : UserPreferences :=
  mkPrefs 200000 1000000 None 1 60 1 [] [] "any" 0.

Record RecommendationRequest := mkRequest {
  user_preferences : UserPreferences;
  max_results : Z
}.

Record PropertyRecommendation := mkRecommendation {
  property_id : string;
  address : string;
  price : Z;
  score : PyFloat;
  reason : string
}.

Record RecommendationResponse := mkResponse {
  recommendations : list PropertyRecommendation
}.

(** ** The process state *)

Abbreviation loc := nat.

(** What the handler did, in order: a record kept beside the state. *)
Inductive Event :=
| EvCopy
| EvMask
| EvBundleGet (key : string)
| EvSelect
| EvTransform
| EvPredictProba
| EvPredict
| EvAssign
| EvSort
| EvHead.

Record World := mkWorld {
  heap : list DataFrame;
  property_data : loc;
  model_bundle : Bundle;
  trace : list Event
}.

Definition M (A : Type) := World -> Outcome A * World.

Definition ret {A} (a : A) : M A := fun w => (Return a, w).

Definition raise {A} (e : Exn) : M A := fun w => (Raise e, w).

Definition bind {A B} (m : M A) (k : A -> M B) : M B :=
  fun w =>
    match m w with
    | (Return a, w') => k a w'
    | (Raise e, w') => (Raise e, w')
    end.

Notation "'let*' x ':=' m 'in' k" := (bind m (fun x => k))
  (at level 10, x name, m at level 100, k at level 200).

Definition lift {A} (o : Outcome A) : M A := fun w => (o, w).

Definition emit (e : Event) : M unit :=
  fun w => (Return tt,
            mkWorld (heap w) (property_data w) (model_bundle w) (trace w ++ [e])).

Definition deref (l : loc) : M DataFrame :=
  fun w =>
    match heap w !! l with
    | Some df => (Return df, w)
    | None => (Raise AttributeError, w)
    end.

Definition alloc (df : DataFrame) : M loc :=
  fun w => (Return (length (heap w)),
            mkWorld (heap w ++ [df]) (property_data w) (model_bundle w) (trace w)).

Definition store (l : loc) (df : DataFrame) : M unit :=
  fun w => (Return tt,
            mkWorld (<[l := df]> (heap w)) (property_data w) (model_bundle w) (trace w)).

Definition get_property_data : M loc := fun w => (Return (property_data w), w).

Definition get_model_bundle : M Bundle := fun w => (Return (model_bundle w), w).

(** ** The pandas operations the handler uses *)

(** [df.empty] *)
Definition df_empty (l : loc) : M bool :=
  let* df := deref l in
  ret (match df with [] => true | _ :: _ => false end).

(** [df.copy()] *)
Definition df_copy (l : loc) : M loc :=
  let* df := deref l in
  let* _ := emit EvCopy in
  alloc df.

(** [df[mask]] for a row-wise boolean mask: a new table. *)
Definition df_mask (p : Row -> bool) (l : loc) : M loc :=
  let* df := deref l in
  let* _ := emit EvMask in
  alloc (List.filter p df).

(** The cells of one row under the labels [cols].  A label that is no
    column of the row is no column of the table. *)
Definition select_row (cols : list string) (r : Row) : Outcome (list Value) :=
  omapM (fun c => match row_get c r with
                  | Some v => Return v
                  | None => Raise LabelsNotInIndex
                  end) cols.

(** [df[features]]: the named columns, in the order of the names. *)
Definition df_select (cols : list string) (l : loc) : M (list (list Value)) :=
  let* df := deref l in
  let* _ := emit EvSelect in
  lift (omapM (select_row cols) df).

(** [P[:, 1]] *)
Definition column1 (P : Matrix) : Outcome (list Q) :=
  omapM (fun row => match row !! 1%nat with
                    | Some p => Return p
                    | None => Raise IndexError
                    end) P.

(** [df['score'] = preds], in place; the lengths must agree. *)
Definition df_assign_score (preds : list Q) (l : loc) : M unit :=
  let* df := deref l in
  let* _ := emit EvAssign in
  if (length preds =? length df)%nat
  then store l (zip_with row_set_score preds df)
  else raise ValueError.

Definition score_key (r : Row) : Outcome Q :=
  match row_get "score" r with
  | Some (VFloat q) => Return q
  | Some (VInt z) => Return (inject_Z z)
  | _ => Raise (KeyError "score")
  end.

(** [df.head(n)] is [df.iloc[:n]]: for a negative [n], all rows but the
    last [-n]. *)
Definition head_rows {A} (n : Z) (df : list A) : list A :=
  if 0 <=? n then take (Z.to_nat n) df
  else take (length df - Z.to_nat (- n)) df.

Definition df_head (n : Z) (l : loc) : M loc :=
  let* df := deref l in
  let* _ := emit EvHead in
  alloc (head_rows n df).

(** [sort_values] takes the sorting algorithm as [kind]; the default is
    [quicksort]. *)
Inductive SortKind := quicksort | mergesort | heapsort | stable.

Abbreviation Keyed := (Q * Row)%type.

Definition desc (a b : Keyed) : Prop := (fst b <= fst a)%Q.

Definition same_key (k : Q) (a : Keyed) : bool := Qeq_bool (fst a) k.

(** What pandas documents for [sort_values(by=..., ascending=False)]: the
    result holds the same rows, in descending order of the key; equal keys
    keep their order only for the kinds [mergesort] and [stable]. *)
Class PandasSort := {
  sort_values : SortKind -> list Keyed -> list Keyed;
  sort_values_perm : forall k l, Permutation (sort_values k l) l;
  sort_values_sorted : forall k l, StronglySorted desc (sort_values k l);
  sort_values_stable : forall k l x,
    k = mergesort \/ k = stable ->
    List.filter (same_key x) (sort_values k l) = List.filter (same_key x) l
}.

(** ** Presentation (lines 113-121) *)

(** The f-string of line 114. *)
Definition reason_of (r : Row) : string :=
  "Located in " +:+ row_city r +:+ ", " +:+ pretty (row_bedrooms r)
  +:+ " BR, $" +:+ pretty (row_price r)
  +:+ " - School rating: " +:+ pretty (row_school_rating r).

Definition make_recommendation (r : Row) : Outcome PropertyRecommendation :=
  obind (score_key r) (fun s =>
    Return (mkRecommendation (row_property_id r) (row_address r) (row_price r)
              (py_round (float_mul s 100) 2) (reason_of r))).

(** ** The handler (lines 79-123) *)

(** [if prefs.city:] holds for a string that is present and not empty. *)
Definition truthy_str (o : option string) : bool :=
  match o with
  | Some s => negb (String.eqb s "")
  | None => false
  end.

(** [df['city'] == prefs.city], row by row. *)
Definition city_is (o : option string) (r : Row) : bool :=
  match o with
  | Some c => String.eqb (row_city r) c
  | None => false
  end.

(** [model_bundle[k]] *)
Definition bundle_item {A} (k : string) (o : option A) : M A :=
  let* _ := emit (EvBundleGet k) in
  match o with
  | Some v => ret v
  | None => raise (KeyError k)
  end.

(** Lines 88-97. *)
Definition preference_filter (prefs : UserPreferences) (pd : loc) : M loc :=
  let* df := df_copy pd in
  let* df := df_mask (fun r => (budget_min prefs <=? row_price r)
                               && (row_price r <=? budget_max prefs)) df in
  let* df := df_mask (fun r => min_bedrooms prefs <=? row_bedrooms r) df in
  let* df := df_mask (fun r => row_commute_time_min r
                               <=? max_commute_time_minutes prefs) df in
  let* df := df_mask (fun r => min_school_rating prefs <=? row_school_rating r) df in
  let* df := (if truthy_str (city prefs)
              then df_mask (city_is (city prefs)) df
              else ret df) in
  let* df := (if bool_decide ("pool" ∈ must_have_features prefs)
              then df_mask (fun r => Bool.eqb (row_has_pool r) true) df
              else ret df) in
  df_mask (fun r => min_garage_spaces prefs <=? row_garage_spaces r) df.

(** Lines 103-109. *)
Definition scoring_stage (df : loc) : M unit :=
  let* bundle := get_model_bundle in
  let* model := bundle_item "model" (bundle_model bundle) in
  let* scaler := bundle_item "scaler" (bundle_scaler bundle) in
  let* features := bundle_item "features" (bundle_features bundle) in
  let* selected := df_select features df in
  let* _ := emit EvTransform in
  let* X := lift (transform scaler selected) in
  let* preds := match predict_proba model with
                | Some proba =>
                    let* _ := emit EvPredictProba in
                    let* P := lift (proba X) in
                    lift (column1 P)
                | None =>
                    let* _ := emit EvPredict in
                    lift (predict model X)
                end in
  df_assign_score preds df.

Section Handler.

Context `{PandasSort}.

(** [df.sort_values(by='score', ascending=False)]: a new table. *)
Definition df_sort_by_score_desc (l : loc) : M loc :=
  let* df := deref l in
  let* _ := emit EvSort in
  let* keys := lift (omapM score_key df) in
  alloc ((sort_values quicksort (zip keys df)).*2).

(** Lines 110-123. *)
Definition rank_and_present (n : Z) (df : loc) : M RecommendationResponse :=
  let* df_sorted := df_sort_by_score_desc df in
  let* top := df_head n df_sorted in
  let* rows := deref top in
  let* recs := lift (omapM make_recommendation rows) in
  ret (mkResponse recs).

Definition recommend_properties (req : RecommendationRequest)
  : M RecommendationResponse :=
  let prefs := user_preferences req in
  let* pd := get_property_data in
  let* e := df_empty pd in
  if e then raise (HTTPException 500 "No property data available")
  else
    let* df := preference_filter prefs pd in
    let* e := df_empty df in
    if e then ret (mkResponse [])
    else
      let* _ := scoring_stage df in
      rank_and_present (max_results req) df.

End Handler.

(** ** Start-up (lines 21-39) and the framework's view of an outcome *)

(** The two loads of [lifespan]: a failed CSV load leaves an empty table, a
    failed model load leaves the bundle as it was, [{}]. *)
Definition lifespan (csv : Outcome DataFrame) (pkl : Outcome Bundle) : World :=
  mkWorld [match csv with Return df => df | Raise _ => [] end]
          0%nat
          (match pkl with Return b => b | Raise _ => empty_bundle end)
          [].

Inductive Body :=
| JsonRecommendations (r : RecommendationResponse)
| JsonDetail (detail : string)
| PlainText (s : string).

Record HTTPResponse := mkHTTP { status : Z; body : Body }.

(** FastAPI answers 200 with the returned model, turns an [HTTPException]
    into its status and detail, and any other exception into a bare 500. *)
Definition respond (o : Outcome RecommendationResponse) : HTTPResponse :=
  match o with
  | Return r => mkHTTP 200 (JsonRecommendations r)
  | Raise (HTTPException c d) => mkHTTP c (JsonDetail d)
  | Raise _ => mkHTTP 500 (PlainText "Internal Server Error")
  end.

(** * Views of the handler and vocabulary of the properties *)

(** ** The stages as functions of their inputs *)

(** The table the chain of selections of lines 89-97 leaves. *)
Definition candidates (prefs : UserPreferences) (rows : DataFrame) : DataFrame :=
  let df := List.filter (fun r => (budget_min prefs <=? row_price r)
                                  && (row_price r <=? budget_max prefs)) rows in
  let df := List.filter (fun r => min_bedrooms prefs <=? row_bedrooms r) df in
  let df := List.filter (fun r => row_commute_time_min r
                                  <=? max_commute_time_minutes prefs) df in
  let df := List.filter (fun r => min_school_rating prefs <=? row_school_rating r) df in
  let df := if truthy_str (city prefs)
            then List.filter (city_is (city prefs)) df else df in
  let df := if bool_decide ("pool" ∈ must_have_features prefs)
            then List.filter (fun r => Bool.eqb (row_has_pool r) true) df else df in
  List.filter (fun r => min_garage_spaces prefs <=? row_garage_spaces r) df.

Definition need {A} (k : string) (o : option A) : Outcome A :=
  match o with
  | Some v => Return v
  | None => Raise (KeyError k)
  end.

(** The predictions lines 103-107 compute for a table, as a function of the
    bundle and of the table alone. *)
Definition score_rows (b : Bundle) (cands : DataFrame) : Outcome (list Q) :=
  obind (need "model" (bundle_model b)) (fun model =>
  obind (need "scaler" (bundle_scaler b)) (fun scaler =>
  obind (need "features" (bundle_features b)) (fun features =>
  obind (omapM (select_row features) cands) (fun selected =>
  obind (transform scaler selected) (fun X =>
  match predict_proba model with
  | Some proba => obind (proba X) column1
  | None => predict model X
  end))))).

(** The outcome of line 109 for predictions [preds]. *)
Definition assigned (cands : DataFrame) (preds : list Q) : Outcome DataFrame :=
  if (length preds =? length cands)%nat
  then Return (zip_with row_set_score preds cands)
  else Raise ValueError.

(** The record built from a row whose score is [k]. *)
Definition recommend_of (kr : Keyed) : PropertyRecommendation :=
  mkRecommendation (row_property_id kr.2) (row_address kr.2) (row_price kr.2)
                   (py_round (float_mul kr.1 100) 2) (reason_of kr.2).

Section Views.

Context `{PandasSort}.

(** The outcome of lines 110-123 on a table. *)
Definition present (n : Z) (scored : DataFrame) : Outcome RecommendationResponse :=
  obind (omapM score_key scored) (fun keys =>
  obind (omapM make_recommendation
               (head_rows n (sort_values quicksort (zip keys scored)).*2))
        (fun recs => Return (mkResponse recs))).

Definition pipeline (rows : DataFrame) (b : Bundle) (req : RecommendationRequest)
  : Outcome RecommendationResponse :=
  match rows with
  | [] => Raise (HTTPException 500 "No property data available")
  | _ :: _ =>
      let cands := candidates (user_preferences req) rows in
      match cands with
      | [] => Return (mkResponse [])
      | _ :: _ =>
          obind (obind (score_rows b cands) (assigned cands))
                (present (max_results req))
      end
  end.

(** The rows behind the response, each with its score: the scored
    candidates, sorted, then cut by [head]. *)
Definition ranked (n : Z) (preds : list Q) (cands : DataFrame) : list Keyed :=
  head_rows n (sort_values quicksort
                 (zip preds (zip_with row_set_score preds cands))).

End Views.

(** ** Effects on the state *)

(** [grows P w w']: [w'] has the globals of [w], every table of [w]
    unchanged at its location, possibly new tables behind them, and new
    events that all satisfy [P]. *)
Record grows (P : Event -> Prop) (w w' : World) : Prop := mkGrows {
  grows_property_data : property_data w' = property_data w;
  grows_model_bundle : model_bundle w' = model_bundle w;
  grows_heap : exists ext, heap w' = heap w ++ ext;
  grows_trace : exists evs, trace w' = trace w ++ evs /\ Forall P evs
}.

Definition filter_event (e : Event) : Prop := e = EvCopy \/ e = EvMask.

Definition scoring_event (e : Event) : Prop :=
  match e with
  | EvBundleGet _ | EvSelect | EvTransform | EvPredictProba | EvPredict
  | EvAssign => True
  | _ => False
  end.

Definition ranking_event (e : Event) : Prop := e = EvSort \/ e = EvHead.

Definition any_event (e : Event) : Prop := True.

(** The event of the model call: [predict_proba] when the model has it. *)
Definition scoring_call (model : Model) : Event :=
  match predict_proba model with
  | Some _ => EvPredictProba
  | None => EvPredict
  end.

(** ** The preference filter, as the specification words it *)

(** A city is specified when the field is present and not the empty
    string: this is the test [if prefs.city:]. *)
Definition city_specified (prefs : UserPreferences) : Prop :=
  match city prefs with
  | Some c => c <> ""
  | None => False
  end.

(** The seven predicates, as one conjunction. *)
Definition Satisfies (prefs : UserPreferences) (r : Row) : Prop :=
  (budget_min prefs <= row_price r <= budget_max prefs)
  /\ min_bedrooms prefs <= row_bedrooms r
  /\ row_commute_time_min r <= max_commute_time_minutes prefs
  /\ min_school_rating prefs <= row_school_rating r
  /\ (city_specified prefs -> city prefs = Some (row_city r))
  /\ ("pool" ∈ must_have_features prefs -> row_has_pool r = true)
  /\ min_garage_spaces prefs <= row_garage_spaces r.

#[global] Instance city_specified_dec prefs : Decision (city_specified prefs).
Proof. unfold city_specified. destruct (city prefs); apply _. Defined.

#[global] Instance Satisfies_dec prefs r : Decision (Satisfies prefs r).
Proof. unfold Satisfies. apply _. Defined.

(** The conjunction as the code evaluates it on one row. *)
Definition satisfies (prefs : UserPreferences) (r : Row) : bool :=
  (budget_min prefs <=? row_price r) && (row_price r <=? budget_max prefs)
  && (min_bedrooms prefs <=? row_bedrooms r)
  && (row_commute_time_min r <=? max_commute_time_minutes prefs)
  && (min_school_rating prefs <=? row_school_rating r)
  && (if truthy_str (city prefs) then city_is (city prefs) r else true)
  && (if bool_decide ("pool" ∈ must_have_features prefs)
      then Bool.eqb (row_has_pool r) true else true)
  && (min_garage_spaces prefs <=? row_garage_spaces r).

(** The row a recommendation presents. *)
Definition underlies (r : Row) (rec : PropertyRecommendation) : Prop :=
  property_id rec = row_property_id r
  /\ address rec = row_address r
  /\ price rec = row_price r
  /\ reason rec = reason_of r.

(** ** Order of a response *)

(** [lo <= x <= hi] for a float [x]. *)
Definition float_between (lo hi : Q) (x : PyFloat) : Prop :=
  float_le (Finite lo) x /\ float_le x (Finite hi).





(** ** A small table, a scaler and two models *)

Module Sample.

Definition denver_a : Row :=
  mkRow "A" "1 Elm St" 500000 3 30 8 true 2 "Denver" (<["sqft" := VInt 1500]> ∅).

Definition denver_b : Row :=
  mkRow "B" "2 Oak St" 600000 4 20 9 false 1 "Denver" (<["sqft" := VInt 2000]> ∅).

Definition boulder_c : Row :=
  mkRow "C" "3 Pine St" 100000 2 45 6 false 0 "Boulder" (<["sqft" := VInt 900]> ∅).

Definition table : DataFrame := [denver_a; denver_b; boulder_c].

Definition as_float (v : Value) : Outcome Q :=
  match v with
  | VInt z => Return (inject_Z z)
  | VFloat q => Return q
  | VBool b => Return (if b then 1%Q else 0%Q)
  | VStr _ => Raise (ModelError "could not convert string to float")
  end.

(** A scaler that leaves numbers as they are. *)
Definition scaler : Scaler := mkScaler (omapM (omapM as_float)).

(** A classifier that gives both classes probability one half on every
    row. *)
Definition classifier : Model :=
  mkModel (Some (fun X => Return ((fun _ => [(1 # 2)%Q; (1 # 2)%Q]) <$> X)))
          (fun X => Return ((fun _ => 1%Q) <$> X)).

(** A regressor, without [predict_proba]: it predicts 300 per square foot. *)
Definition regressor : Model :=
  mkModel None
          (fun X => Return ((fun x => (300 * default 0 (x !! 0%nat))%Q) <$> X)).

Definition bundle_of (m : Model) : Bundle :=
  mkBundle (Some m) (Some scaler) (Some ["sqft"; "bedrooms"]).

Definition world (m : Model) : World :=
  lifespan (Return table) (Return (bundle_of m)).

Definition request : RecommendationRequest := mkRequest default_preferences 3.

End Sample.

(** ** A sorting routine that meets the interface

    Insertion into a descending list.  With [before_ties] the new element
    is put in front of the elements of equal key, so that sorting from the
    right keeps ties in source order. *)
Module InsertionSort.

Definition goes_first (before_ties : bool) (x y : Keyed) : bool :=
  if before_ties then Qle_bool (fst y) (fst x)
  else negb (Qle_bool (fst x) (fst y)).

Fixpoint insert_desc (before_ties : bool) (x : Keyed) (l : list Keyed)
  : list Keyed :=
  match l with
  | [] => [x]
  | y :: l' =>
      if goes_first before_ties x y then x :: y :: l'
      else y :: insert_desc before_ties x l'
  end.

Definition isort (before_ties : bool) (l : list Keyed) : list Keyed :=
  foldr (insert_desc before_ties) [] l.

Lemma goes_first_desc b x y : goes_first b x y = true -> desc x y.
Proof.
  unfold goes_first, desc. destruct b.
  - apply Qle_bool_iff.
  - intros Hn. apply Qlt_le_weak, Qnot_le_lt. intros Hle.
    apply Qle_bool_iff in Hle. rewrite Hle in Hn. discriminate.
Qed.

Lemma not_goes_first_desc b x y : goes_first b x y = false -> desc y x.
Proof.
  unfold goes_first, desc. destruct b.
  - intros Hn. apply Qlt_le_weak, Qnot_le_lt. intros Hle.
    apply Qle_bool_iff in Hle. rewrite Hle in Hn. discriminate.
  - intros Hn. apply Qle_bool_iff.
    destruct (Qle_bool (fst x) (fst y)); [reflexivity | discriminate].
Qed.

Lemma insert_desc_perm b x l : Permutation (insert_desc b x l) (x :: l).
Proof.
  induction l as [|y l IH]; simpl.
  - reflexivity.
  - destruct (goes_first b x y).
    + reflexivity.
    + rewrite IH. apply perm_swap.
Qed.

Lemma isort_perm b l : Permutation (isort b l) l.
Proof.
  induction l as [|x l IH]; simpl.
  - reflexivity.
  - rewrite insert_desc_perm. now constructor.
Qed.

Lemma desc_trans x y z : desc x y -> desc y z -> desc x z.
Proof. unfold desc. intros Hxy Hyz. eapply Qle_trans; eassumption. Qed.

Lemma insert_desc_sorted b x l :
  StronglySorted desc l -> StronglySorted desc (insert_desc b x l).
Proof.
  induction 1 as [|y l Hs IH Hall]; simpl.
  - repeat constructor.
  - destruct (goes_first b x y) eqn:Hg.
    + constructor; [now constructor |].
      constructor; [now apply goes_first_desc in Hg |].
      apply goes_first_desc in Hg.
      eapply Forall_impl; [exact Hall |].
      intros z Hz. eapply desc_trans; eassumption.
    + constructor; [exact IH |].
      rewrite (insert_desc_perm b x l).
      constructor; [now apply not_goes_first_desc in Hg | exact Hall].
Qed.

Lemma isort_sorted b l : StronglySorted desc (isort b l).
Proof.
  induction l as [|x l IH]; simpl.
  - constructor.
  - now apply insert_desc_sorted.
Qed.

Lemma insert_before_ties_filter k x l :
  List.filter (same_key k) (insert_desc true x l)
  = List.filter (same_key k) (x :: l).
Proof.
  induction l as [|y l IH]; [reflexivity |].
  cbn [insert_desc]. destruct (goes_first true x y) eqn:Hg; [reflexivity |].
  cbn [List.filter] in *. rewrite IH.
  destruct (same_key k x) eqn:Hx; [| reflexivity].
  destruct (same_key k y) eqn:Hy; [| reflexivity].
  exfalso. unfold same_key in Hx, Hy.
  apply Qeq_bool_iff in Hx. apply Qeq_bool_iff in Hy.
  unfold goes_first in Hg.
  assert (Hle : Qle_bool (fst y) (fst x) = true).
  { apply Qle_bool_iff. rewrite Hx, Hy. apply Qle_refl. }
  rewrite Hle in Hg. discriminate.
Qed.

Lemma isort_before_ties_stable k l :
  List.filter (same_key k) (isort true l) = List.filter (same_key k) l.
Proof.
  induction l as [|x l IH]; [reflexivity |].
  cbn [isort foldr]. rewrite insert_before_ties_filter.
  cbn [List.filter]. fold (isort true l). now rewrite IH.
Qed.

(** Every kind keeps ties in source order. *)
Definition stable_sort : PandasSort.
Proof.
  refine {| sort_values := fun _ => isort true |}.
  - intros _ l. apply isort_perm.
  - intros _ l. apply isort_sorted.
  - intros _ l x _. apply isort_before_ties_stable.
Defined.

End InsertionSort.

(** ** Vocabulary of the further properties *)

(** The city the filter goes by: none when the field is absent or empty
    (line 93). *)
Definition effective_city (prefs : UserPreferences) : option string :=
  if truthy_str (city prefs) then city prefs else None.

(** Two preference values that agree on everything lines 89-97 read: the
    two budgets, the three thresholds, the garage spaces, the city the
    filter goes by, and whether "pool" is among the required features. *)
Definition same_constraints (p q : UserPreferences) : Prop :=
  budget_min p = budget_min q
  /\ budget_max p = budget_max q
  /\ effective_city p = effective_city q
  /\ min_bedrooms p = min_bedrooms q
  /\ max_commute_time_minutes p = max_commute_time_minutes q
  /\ min_school_rating p = min_school_rating q
  /\ ("pool" ∈ must_have_features p <-> "pool" ∈ must_have_features q)
  /\ min_garage_spaces p = min_garage_spaces q.

(** [prefs] with another list of required features. *)
Definition with_must_have (prefs : UserPreferences) (tags : list string)
  : UserPreferences :=
  mkPrefs (budget_min prefs) (budget_max prefs) (city prefs) (min_bedrooms prefs)
          (max_commute_time_minutes prefs) (min_school_rating prefs) tags
          (lifestyle_preferences prefs) (size_preference prefs)
          (min_garage_spaces prefs).

Section Serving.

Context `{PandasSort}.

(** The handler called for one request after the other, each in the state
    the one before left. *)
Fixpoint serve (reqs : list RecommendationRequest) (w : World)
  : list (Outcome RecommendationResponse) * World :=
  match reqs with
  | [] => ([], w)
  | req :: reqs' =>
      let ow := recommend_properties req w in
      let osw := serve reqs' ow.2 in
      (ow.1 :: osw.1, osw.2)
  end.

End Serving.

(** ** A bundle whose parts fail *)

Module Faulty.

(** A classifier fitted on one class: one probability per row. *)
Definition one_class : Model :=
  mkModel (Some (fun X => Return ((fun _ => [1%Q]) <$> X)))
          (fun X => Return ((fun _ => 0%Q) <$> X)).

(** A scaler that rejects what it is given. *)
Definition rejecting_scaler : Scaler :=
  mkScaler (fun _ => Raise ValueError).

End Faulty.

(** [q] asks for at least what [p] asks for: every bound of [q] is as
    tight as the one of [p], a city [p] goes by is the city of [q], and
    [q] requires a pool if [p] does. *)
Definition stricter (p q : UserPreferences) : Prop :=
  budget_min p <= budget_min q
  /\ budget_max q <= budget_max p
  /\ min_bedrooms p <= min_bedrooms q
  /\ max_commute_time_minutes q <= max_commute_time_minutes p
  /\ min_school_rating p <= min_school_rating q
  /\ (city_specified p -> city q = city p)
  /\ ("pool" ∈ must_have_features p -> "pool" ∈ must_have_features q)
  /\ min_garage_spaces p <= min_garage_spaces q.

(** * Properties *)

(** ** The monad *)

Lemma bind_Return {A B} (m : M A) (k : A -> M B) w a w' :
  m w = (Return a, w') -> bind m k w = k a w'.
Proof. unfold bind. now intros ->. Qed.

Lemma bind_Raise {A B} (m : M A) (k : A -> M B) w e w' :
  m w = (Raise e, w') -> bind m k w = (Raise e, w').
Proof. unfold bind. now intros ->. Qed.

Lemma lookup_new {A} (h : list A) (x : A) : (h ++ [x]) !! length h = Some x.
Proof. now apply list_lookup_middle. Qed.

Lemma grows_refl P w : grows P w w.
Proof.
  split; try reflexivity.
  - exists []. now rewrite app_nil_r.
  - exists []. split; [now rewrite app_nil_r | constructor].
Qed.

Lemma grows_trans P w1 w2 w3 : grows P w1 w2 -> grows P w2 w3 -> grows P w1 w3.
Proof.
  intros [Hp1 Hb1 [x1 Hh1] [e1 [Ht1 Hf1]]] [Hp2 Hb2 [x2 Hh2] [e2 [Ht2 Hf2]]].
  split.
  - congruence.
  - congruence.
  - exists (x1 ++ x2). rewrite Hh2, Hh1. now rewrite app_assoc.
  - exists (e1 ++ e2). split.
    + rewrite Ht2, Ht1. now rewrite app_assoc.
    + now apply Forall_app.
Qed.

Lemma grows_weaken (P Q : Event -> Prop) w w' :
  (forall e, P e -> Q e) -> grows P w w' -> grows Q w w'.
Proof.
  intros HPQ [Hp Hb Hh [evs [Ht Hf]]]. split; try assumption.
  exists evs. split; [assumption |].
  eapply Forall_impl; [exact Hf | exact HPQ].
Qed.

Lemma grows_lookup P w w' l df :
  grows P w w' -> heap w !! l = Some df -> heap w' !! l = Some df.
Proof.
  intros [_ _ [ext Hh] _] Hl. rewrite Hh. now apply lookup_app_l_Some.
Qed.

(** ** The pandas operations *)

Lemma df_empty_run l w df :
  heap w !! l = Some df ->
  df_empty l w = (Return (match df with [] => true | _ :: _ => false end), w).
Proof. intros Hl. unfold df_empty, bind, deref, ret. now rewrite Hl. Qed.

Lemma df_copy_run l w df :
  heap w !! l = Some df ->
  df_copy l w
  = (Return (length (heap w)),
     mkWorld (heap w ++ [df]) (property_data w) (model_bundle w)
             (trace w ++ [EvCopy])).
Proof. intros Hl. unfold df_copy, bind, deref, emit, alloc. now rewrite Hl. Qed.

Lemma df_mask_run p l w df :
  heap w !! l = Some df ->
  df_mask p l w
  = (Return (length (heap w)),
     mkWorld (heap w ++ [List.filter p df]) (property_data w) (model_bundle w)
             (trace w ++ [EvMask])).
Proof. intros Hl. unfold df_mask, bind, deref, emit, alloc. now rewrite Hl. Qed.

Lemma df_head_run n l w df :
  heap w !! l = Some df ->
  df_head n l w
  = (Return (length (heap w)),
     mkWorld (heap w ++ [head_rows n df]) (property_data w) (model_bundle w)
             (trace w ++ [EvHead])).
Proof. intros Hl. unfold df_head, bind, deref, emit, alloc. now rewrite Hl. Qed.

(** ** The preference filter *)

Ltac run_step lem :=
  erewrite bind_Return by (apply lem; cbn [heap]; first [eassumption | apply lookup_new]).

Lemma preference_filter_run prefs pd w rows :
  heap w !! pd = Some rows ->
  exists l w',
    preference_filter prefs pd w = (Return l, w')
    /\ grows filter_event w w'
    /\ (length (heap w) <= l)%nat
    /\ heap w' !! l = Some (candidates prefs rows).
Proof.
  intros Hpd. unfold preference_filter, candidates.
  run_step df_copy_run. do 4 run_step df_mask_run.
  destruct (truthy_str (city prefs));
    destruct (bool_decide ("pool" ∈ must_have_features prefs));
    repeat first [ run_step df_mask_run
                 | erewrite bind_Return by (unfold ret; reflexivity) ];
    (erewrite df_mask_run by (cbn [heap]; apply lookup_new));
    (do 2 eexists; split; [reflexivity |]; split; [| split]);
    cbn [heap].
  all: try (rewrite !length_app; lia).
  all: try apply lookup_new.
  all: split; cbn [heap trace property_data model_bundle];
    [ reflexivity | reflexivity
    | rewrite <- ?app_assoc; eexists; reflexivity
    | rewrite <- ?app_assoc; eexists; split; [reflexivity |];
      repeat (constructor; [unfold filter_event; auto |]); constructor ].
Qed.

(** ** The scoring stage *)

Lemma scoring_stage_run df w cands :
  heap w !! df = Some cands ->
  exists w',
    scoring_stage df w
    = (obind (obind (score_rows (model_bundle w) cands) (assigned cands))
             (fun _ => Return tt), w')
    /\ property_data w' = property_data w
    /\ model_bundle w' = model_bundle w
    /\ heap w'
       = match obind (score_rows (model_bundle w) cands) (assigned cands) with
         | Return scored => <[df := scored]> (heap w)
         | Raise _ => heap w
         end
    /\ exists evs, trace w' = trace w ++ evs /\ Forall scoring_event evs.
Proof.
  intros Hl.
  unfold scoring_stage, score_rows, assigned, bundle_item, df_select,
    df_assign_score, bind, get_model_bundle, emit, deref, lift, ret, raise,
    store, need, obind.
  cbn [heap property_data model_bundle trace].
  destruct (bundle_model (model_bundle w)) as [model|];
    [destruct (bundle_scaler (model_bundle w)) as [scaler|];
     [destruct (bundle_features (model_bundle w)) as [features|] | ] | ];
    cbn [heap property_data model_bundle trace]; rewrite ?Hl.
  1: destruct (omapM (select_row features) cands) as [selected|];
    cbn [heap property_data model_bundle trace];
    [destruct (transform scaler selected) as [X|];
     [destruct (predict_proba model) as [proba|];
      cbn [heap property_data model_bundle trace];
      [destruct (proba X) as [P|]; [destruct (column1 P) as [preds|] | ]
      | destruct (predict model X) as [preds|] ] | ] | ];
    cbn [heap property_data model_bundle trace]; rewrite ?Hl;
    try destruct (length preds =? length cands)%nat.
  all: eexists; split; [reflexivity |];
    cbn [heap property_data model_bundle trace];
    split; [reflexivity |]; split; [reflexivity |]; split; [reflexivity |];
    rewrite <- ?app_assoc; eexists; split; [reflexivity |];
    repeat (constructor; [exact I |]); constructor.
Qed.

(** ** Ranking and presentation *)

Lemma head_rows_fmap {A B} (f : A -> B) n (l : list A) :
  f <$> head_rows n l = head_rows n (f <$> l).
Proof.
  unfold head_rows. destruct (0 <=? n).
  - apply fmap_take.
  - rewrite length_fmap. apply fmap_take.
Qed.

Lemma head_rows_take {A} n (l : list A) : exists m, head_rows n l = take m l.
Proof. unfold head_rows. destruct (0 <=? n); eauto. Qed.

Section Ranking.

Context `{PandasSort}.

Lemma df_sort_run l w df keys :
  heap w !! l = Some df ->
  omapM score_key df = Return keys ->
  df_sort_by_score_desc l w
  = (Return (length (heap w)),
     mkWorld (heap w ++ [(sort_values quicksort (zip keys df)).*2])
             (property_data w) (model_bundle w) (trace w ++ [EvSort])).
Proof.
  intros Hl Hk. unfold df_sort_by_score_desc, bind, deref, emit, lift, alloc.
  cbn [heap property_data model_bundle trace]. now rewrite Hl, Hk.
Qed.

Lemma df_sort_fail l w df e :
  heap w !! l = Some df ->
  omapM score_key df = Raise e ->
  df_sort_by_score_desc l w
  = (Raise e,
     mkWorld (heap w) (property_data w) (model_bundle w) (trace w ++ [EvSort])).
Proof.
  intros Hl Hk. unfold df_sort_by_score_desc, bind, deref, emit, lift, alloc.
  cbn [heap property_data model_bundle trace]. now rewrite Hl, Hk.
Qed.

Lemma rank_and_present_run n df w scored :
  heap w !! df = Some scored ->
  exists w',
    rank_and_present n df w = (present n scored, w')
    /\ grows ranking_event w w'.
Proof.
  intros Hl. unfold rank_and_present, present.
  destruct (omapM score_key scored) as [keys|e] eqn:Hk; cbn [obind].
  - erewrite bind_Return by (eapply df_sort_run; eassumption).
    run_step df_head_run. cbn [heap].
    unfold bind, deref, lift, ret. cbn [heap]. rewrite lookup_new.
    destruct (omapM make_recommendation _) as [recs|e]; cbn [obind];
      (eexists; split; [reflexivity |]);
      (split; cbn [heap property_data model_bundle trace];
       [ reflexivity | reflexivity
       | rewrite <- ?app_assoc; eexists; reflexivity
       | rewrite <- ?app_assoc; eexists; split; [reflexivity |];
         repeat (constructor; [unfold ranking_event; auto |]); constructor ]).
  - erewrite bind_Raise by (eapply df_sort_fail; eassumption).
    eexists; split; [reflexivity |].
    split; cbn [heap property_data model_bundle trace];
      [ reflexivity | reflexivity
      | exists []; now rewrite app_nil_r
      | eexists; split; [reflexivity |];
        repeat (constructor; [unfold ranking_event; auto |]); constructor ].
Qed.

End Ranking.

(** ** The handler as a function of the table, the bundle and the request *)

Lemma grows_store P w w1 w2 l scored evs :
  grows P w w1 ->
  (length (heap w) <= l)%nat ->
  property_data w2 = property_data w1 ->
  model_bundle w2 = model_bundle w1 ->
  heap w2 = <[l := scored]> (heap w1) ->
  trace w2 = trace w1 ++ evs ->
  grows any_event w w2.
Proof.
  intros [Hp Hb [ext Hh] [evs1 [Ht _]]] Hl Hp2 Hb2 Hh2 Ht2. split.
  - congruence.
  - congruence.
  - exists (<[(l - length (heap w))%nat := scored]> ext).
    rewrite Hh2, Hh. now apply insert_app_r_alt.
  - exists (evs1 ++ evs). split.
    + rewrite Ht2, Ht. now rewrite app_assoc.
    + apply Forall_forall. intros; exact I.
Qed.

Section Pipeline.

Context `{PandasSort}.

Lemma recommend_properties_run req w rows :
  heap w !! property_data w = Some rows ->
  exists w',
    recommend_properties req w = (pipeline rows (model_bundle w) req, w')
    /\ grows any_event w w'.
Proof.
  intros Hpd. unfold recommend_properties, pipeline. cbv zeta.
  erewrite bind_Return by reflexivity.
  erewrite bind_Return by (apply df_empty_run; eassumption).
  destruct rows as [|r0 rows'].
  { exists w. split; [reflexivity | apply grows_refl]. }
  destruct (preference_filter_run (user_preferences req) _ w _ Hpd)
    as (l & w1 & E1 & G1 & Hl & Hc).
  erewrite bind_Return by exact E1.
  erewrite bind_Return by (apply df_empty_run; eassumption).
  destruct (candidates (user_preferences req) (r0 :: rows')) as [|c0 cands'] eqn:Hcands.
  { exists w1. split; [reflexivity |].
    eapply grows_weaken; [| exact G1]. intros; exact I. }
  destruct (scoring_stage_run l w1 _ Hc)
    as (w2 & E2 & Hp2 & Hb2 & Hh2 & evs & Ht2 & _).
  rewrite (grows_model_bundle _ _ _ G1) in E2, Hh2.
  destruct (obind (score_rows (model_bundle w) (c0 :: cands')) (assigned (c0 :: cands')))
    as [scored|e] eqn:Hs; cbn [obind] in *.
  - erewrite bind_Return by exact E2.
    assert (Hl2 : heap w2 !! l = Some scored).
    { rewrite Hh2. apply list_lookup_insert_eq. eapply lookup_lt_Some, Hc. }
    destruct (rank_and_present_run (max_results req) l w2 scored Hl2)
      as (w3 & E3 & G3).
    exists w3. split; [exact E3 |].
    eapply grows_trans.
    + eapply grows_store; eassumption.
    + eapply grows_weaken; [| exact G3]. intros; exact I.
  - erewrite bind_Raise by exact E2.
    exists w2. split; [reflexivity |].
    eapply (grows_store _ w w1 w2 l (c0 :: cands') evs); try eassumption.
    rewrite Hh2. symmetry. now apply list_insert_id.
Qed.

End Pipeline.

(** ** What a successful request returns *)

Lemma score_key_set p r : score_key (row_set_score p r) = Return p.
Proof.
  unfold score_key, row_get. cbn [String.eqb Ascii.eqb Bool.eqb row_extra row_set_score].
  now rewrite lookup_insert_eq.
Qed.

Lemma make_recommendation_keyed k r :
  score_key r = Return k -> make_recommendation r = Return (recommend_of (k, r)).
Proof. intros Hk. unfold make_recommendation. now rewrite Hk. Qed.

Lemma score_keys_assigned preds cands :
  length preds = length cands ->
  omapM score_key (zip_with row_set_score preds cands) = Return preds.
Proof.
  revert cands. induction preds as [|p preds IH]; intros [|c cands] Hlen;
    try discriminate; [reflexivity |].
  cbn [zip_with omapM]. rewrite score_key_set. cbn [obind].
  rewrite IH by (cbn in Hlen; lia). reflexivity.
Qed.

Lemma keyed_assigned preds cands :
  Forall (fun kr : Keyed => score_key kr.2 = Return kr.1)
         (zip preds (zip_with row_set_score preds cands)).
Proof.
  revert cands. induction preds as [|p preds IH]; intros [|c cands];
    try constructor.
  - apply score_key_set.
  - apply IH.
Qed.

Lemma present_keyed (l : list Keyed) :
  Forall (fun kr : Keyed => score_key kr.2 = Return kr.1) l ->
  omapM make_recommendation (l.*2) = Return (recommend_of <$> l).
Proof.
  induction 1 as [|[k r] l Hk _ IH]; [reflexivity |].
  cbn [fmap list_fmap omapM snd]. cbn [fst snd] in Hk.
  rewrite (make_recommendation_keyed k r Hk). cbn [obind].
  fold (snd <$> l). rewrite IH. reflexivity.
Qed.

Section Success.

Context `{PandasSort}.

Lemma ranked_keyed n preds cands :
  Forall (fun kr : Keyed => score_key kr.2 = Return kr.1) (ranked n preds cands).
Proof.
  unfold ranked.
  destruct (head_rows_take n (sort_values quicksort
              (zip preds (zip_with row_set_score preds cands)))) as [m ->].
  apply Forall_take.
  eapply Permutation_Forall; [symmetry; apply sort_values_perm |].
  apply keyed_assigned.
Qed.

Lemma present_assigned n preds cands :
  length preds = length cands ->
  present n (zip_with row_set_score preds cands)
  = Return (mkResponse (recommend_of <$> ranked n preds cands)).
Proof.
  intros Hlen. unfold present.
  rewrite score_keys_assigned by assumption. cbn [obind].
  rewrite <- head_rows_fmap.
  rewrite present_keyed by apply ranked_keyed. reflexivity.
Qed.

Lemma pipeline_Return rows b req resp :
  pipeline rows b req = Return resp ->
  let cands := candidates (user_preferences req) rows in
  (cands = [] /\ resp = mkResponse [])
  \/ (exists preds,
        cands <> []
        /\ score_rows b cands = Return preds
        /\ length preds = length cands
        /\ resp = mkResponse (recommend_of <$> ranked (max_results req) preds cands)).
Proof.
  unfold pipeline. destruct rows as [|r0 rows']; [discriminate |].
  cbv zeta.
  destruct (candidates (user_preferences req) (r0 :: rows')) as [|c0 cands'];
    intros Hp.
  - left. split; [reflexivity | congruence].
  - right.
    destruct (score_rows b (c0 :: cands')) as [preds|]; [| discriminate].
    cbn [obind] in Hp. unfold assigned in Hp.
    destruct (length preds =? length (c0 :: cands'))%nat eqn:Hlen;
      [| discriminate].
    apply Nat.eqb_eq in Hlen. cbn [obind] in Hp.
    rewrite present_assigned in Hp by assumption.
    exists preds. repeat split; try assumption; congruence.
Qed.

End Success.

(** ** Where a ranked row comes from *)

Section Origin.

Context `{PandasSort}.

Lemma ranked_subset n preds cands kr :
  kr ∈ ranked n preds cands ->
  kr ∈ zip preds (zip_with row_set_score preds cands).
Proof.
  unfold ranked. intros Hin.
  destruct (head_rows_take n (sort_values quicksort
              (zip preds (zip_with row_set_score preds cands)))) as [m Hm].
  rewrite Hm in Hin. apply elem_of_take in Hin as (i & Hi & _).
  rewrite <- (sort_values_perm quicksort).
  apply list_elem_of_lookup. eauto.
Qed.

(** A ranked row is a candidate, at some index [i], carrying the [i]-th
    prediction as its score. *)
Lemma ranked_origin n preds cands kr :
  kr ∈ ranked n preds cands ->
  exists i r,
    preds !! i = Some kr.1 /\ cands !! i = Some r
    /\ kr.2 = row_set_score kr.1 r.
Proof.
  intros Hin. apply ranked_subset in Hin.
  apply elem_of_lookup_zip_with in Hin as (i & p & s & -> & Hp & Hs).
  apply lookup_zip_with_Some in Hs as (p' & r & -> & Hp' & Hr).
  exists i, r. cbn [fst snd]. rewrite Hp in Hp'. inversion Hp'; subst.
  auto.
Qed.

End Origin.

(** ** The conjunction of the filter *)

Lemma List_filter_fuse {A} (f g : A -> bool) (l : list A) :
  List.filter g (List.filter f l) = List.filter (fun x => f x && g x) l.
Proof.
  induction l as [|x l IH]; [reflexivity |].
  cbn [List.filter]. destruct (f x); cbn [List.filter andb]; [| exact IH].
  destruct (g x); now rewrite IH.
Qed.

Lemma List_filter_decide {A} (P : A -> Prop) `{!forall x, Decision (P x)}
      (f : A -> bool) (l : list A) :
  (forall x, f x = true <-> P x) -> List.filter f l = filter P l.
Proof.
  intros Hf. induction l as [|x l IH]; [reflexivity |].
  cbn [List.filter]. rewrite filter_cons, IH.
  destruct (decide (P x)) as [HP | HP].
  - apply Hf in HP. now rewrite HP.
  - destruct (f x) eqn:Hfx; [| reflexivity]. apply Hf in Hfx. contradiction.
Qed.

Lemma candidates_satisfies prefs rows :
  candidates prefs rows = List.filter (satisfies prefs) rows.
Proof.
  unfold candidates, satisfies.
  destruct (truthy_str (city prefs));
    destruct (bool_decide ("pool" ∈ must_have_features prefs));
    rewrite !List_filter_fuse; apply List.filter_ext; intros r;
    rewrite ?andb_true_r, ?andb_assoc; reflexivity.
Qed.

Lemma satisfies_Satisfies prefs r : satisfies prefs r = true <-> Satisfies prefs r.
Proof.
  unfold satisfies, Satisfies, city_specified, truthy_str, city_is.
  rewrite !andb_true_iff, !Z.leb_le.
  destruct (city prefs) as [c|].
  - destruct (String.eqb_spec c "") as [-> | Hc]; cbn [negb];
      destruct (bool_decide_reflect ("pool" ∈ must_have_features prefs)) as [Hp | Hp];
      rewrite ?Bool.eqb_true_iff, ?String.eqb_eq; intuition congruence.
  - destruct (bool_decide_reflect ("pool" ∈ must_have_features prefs)) as [Hp | Hp];
      rewrite ?Bool.eqb_true_iff; intuition congruence.
Qed.

Lemma candidates_filter prefs rows :
  candidates prefs rows = filter (Satisfies prefs) rows.
Proof.
  rewrite candidates_satisfies. apply List_filter_decide.
  apply satisfies_Satisfies.
Qed.

(** ** Rounding *)

Lemma round_half_even_cases x :
  round_half_even x = Qfloor x \/ (round_half_even x = Qfloor x + 1 /\ (1 # 2 <= x - inject_Z (Qfloor x))%Q).
Proof.
  unfold round_half_even.
  destruct (x - inject_Z (Qfloor x) ?= 1 # 2)%Q eqn:Hc.
  - apply Qeq_alt in Hc. destruct (Z.even (Qfloor x)); [now left | right].
    split; [reflexivity |]. rewrite Hc. apply Qle_refl.
  - now left.
  - right. split; [reflexivity |]. apply Qgt_alt in Hc. now apply Qlt_le_weak.
Qed.

Lemma round_half_even_near x :
  (Qabs (inject_Z (round_half_even x) - x) <= 1 # 2)%Q.
Proof.
  pose proof (Qfloor_le x) as Hlo. pose proof (Qlt_floor x) as Hhi.
  rewrite inject_Z_plus in Hhi. change (inject_Z 1) with 1%Q in Hhi.
  apply Qabs_Qle_condition.
  unfold round_half_even.
  destruct (x - inject_Z (Qfloor x) ?= 1 # 2)%Q eqn:Hc.
  - apply Qeq_alt in Hc. destruct (Z.even (Qfloor x));
      rewrite ?inject_Z_plus; change (inject_Z 1) with 1%Q; split; lra.
  - apply Qlt_alt in Hc. split; lra.
  - apply Qgt_alt in Hc. rewrite inject_Z_plus. change (inject_Z 1) with 1%Q.
    split; lra.
Qed.

Lemma round_half_even_between (a b : Z) x :
  (inject_Z a <= x <= inject_Z b)%Q -> a <= round_half_even x <= b.
Proof.
  intros [Ha Hb].
  pose proof (Qfloor_le x) as Hlo.
  assert (Haf : a <= Qfloor x).
  { rewrite <- (Qfloor_Z a). now apply Qfloor_resp_le. }
  assert (Hfb : Qfloor x <= b).
  { rewrite Zle_Qle. lra. }
  destruct (round_half_even_cases x) as [-> | [-> Hhalf]]; [lia |].
  split; [lia |].
  assert (Hlt : (inject_Z (Qfloor x) < inject_Z b)%Q) by lra.
  rewrite <- Zlt_Qlt in Hlt. lia.
Qed.

Lemma round_half_even_mono x y :
  (x <= y)%Q -> round_half_even x <= round_half_even y.
Proof.
  intros Hxy.
  pose proof (Qfloor_resp_le x y Hxy) as Hf.
  destruct (Z.eq_dec (Qfloor x) (Qfloor y)) as [E | N].
  - unfold round_half_even. rewrite E.
    destruct (x - inject_Z (Qfloor y) ?= 1 # 2)%Q eqn:Hx;
      destruct (y - inject_Z (Qfloor y) ?= 1 # 2)%Q eqn:Hy;
      first [apply Qeq_alt in Hx | apply Qlt_alt in Hx | apply Qgt_alt in Hx];
      first [apply Qeq_alt in Hy | apply Qlt_alt in Hy | apply Qgt_alt in Hy];
      try destruct (Z.even (Qfloor y)); try lia; exfalso; lra.
  - destruct (round_half_even_cases x) as [-> | [-> _]];
      destruct (round_half_even_cases y) as [-> | [-> _]]; lia.
Qed.

Lemma round_half_even_ge (a : Z) x : (inject_Z a <= x)%Q -> a <= round_half_even x.
Proof.
  intros Ha.
  assert (Haf : a <= Qfloor x).
  { rewrite <- (Qfloor_Z a). now apply Qfloor_resp_le. }
  destruct (round_half_even_cases x) as [-> | [-> _]]; lia.
Qed.

Lemma round_half_even_le (b : Z) x : (x <= inject_Z b)%Q -> round_half_even x <= b.
Proof.
  intros Hb. pose proof (Qfloor_le x) as Hlo.
  assert (Hfb : Qfloor x <= b).
  { rewrite Zle_Qle. lra. }
  destruct (round_half_even_cases x) as [-> | [-> Hhalf]]; [lia |].
  assert (Hlt : (inject_Z (Qfloor x) < inject_Z b)%Q) by lra.
  rewrite <- Zlt_Qlt in Hlt. lia.
Qed.

(** ** Powers of two *)

Lemma two_not_0 : ~ (2 == 0)%Q.
Proof. discriminate. Qed.

Lemma pow2_pos (k : Z) : (0 < 2 ^ k)%Q.
Proof. now apply Qpower_0_lt. Qed.

Lemma pow2_inject (s : Z) : 0 <= s -> ((2 ^ s)%Q == inject_Z (2 ^ s))%Q.
Proof. intros Hs. symmetry. now apply (Zpower_Qpower 2). Qed.

Lemma pow2_mul (a b : Z) : ((2 ^ a * 2 ^ b)%Q == 2 ^ (a + b))%Q.
Proof. symmetry. apply Qpower_plus, two_not_0. Qed.

Lemma pow2_le (a b : Z) : a <= b -> (2 ^ a <= 2 ^ b)%Q.
Proof. intros Hab. apply Qpower_le_compat_l; [exact Hab | discriminate]. Qed.

(** ** The binary logarithm *)

Lemma ilog2_spec (q : Q) :
  (0 < q)%Q -> (2 ^ ilog2 q <= q)%Q /\ (q < 2 ^ (ilog2 q + 1))%Q.
Proof.
  intros Hpos. unfold ilog2.
  destruct q as [n d]. cbn [Qnum Qden].
  assert (Hn : 0 < n) by (unfold Qlt in Hpos; cbn in Hpos; lia).
  set (a := Z.log2 n). set (b := Z.log2 (Z.pos d)).
  assert (Ha : 2 ^ a <= n < 2 ^ (a + 1)).
  { pose proof (Z.log2_spec n Hn) as H. now rewrite <- Z.add_1_r in H. }
  assert (Hb : 2 ^ b <= Z.pos d < 2 ^ (b + 1)).
  { pose proof (Z.log2_spec (Z.pos d) ltac:(lia)) as H. now rewrite <- Z.add_1_r in H. }
  assert (Ha0 : 0 <= a) by apply Z.log2_nonneg.
  assert (Hb0 : 0 <= b) by apply Z.log2_nonneg.
  assert (Hup : (n # d < 2 ^ (a - b + 1))%Q).
  { apply (Qmult_lt_r _ _ (2 ^ b)); [apply pow2_pos |].
    rewrite pow2_mul. replace (a - b + 1 + b) with (a + 1) by lia.
    rewrite !pow2_inject by lia.
    unfold Qlt, Qmult, inject_Z. cbn [Qnum Qden].
    assert (0 < 2 ^ b) by (apply Z.pow_pos_nonneg; lia). nia. }
  assert (Hlo : (2 ^ (a - b - 1) <= n # d)%Q).
  { apply (Qmult_le_r _ _ (2 ^ (b + 1))); [apply pow2_pos |].
    rewrite pow2_mul. replace (a - b - 1 + (b + 1)) with a by lia.
    rewrite !pow2_inject by lia.
    unfold Qle, Qmult, inject_Z. cbn [Qnum Qden].
    assert (0 < 2 ^ a) by (apply Z.pow_pos_nonneg; lia). nia. }
  destruct (Qle_bool (2 ^ (a - b)) (n # d)) eqn:Hc.
  - apply Qle_bool_iff in Hc. split; assumption.
  - replace (a - b - 1 + 1) with (a - b) by lia. split; [exact Hlo |].
    apply Qnot_le_lt. intros Hle. apply Qle_bool_iff in Hle. congruence.
Qed.

Lemma ilog2_mono (x y : Q) : (0 < x)%Q -> (x <= y)%Q -> ilog2 x <= ilog2 y.
Proof.
  intros Hx Hxy.
  assert (Hy : (0 < y)%Q) by (eapply Qlt_le_trans; eassumption).
  destruct (ilog2_spec x Hx) as [Hlo _]. destruct (ilog2_spec y Hy) as [_ Hup].
  assert (Hlt : (2 ^ ilog2 x < 2 ^ (ilog2 y + 1))%Q).
  { eapply Qle_lt_trans; [exact Hlo |]. eapply Qle_lt_trans; eassumption. }
  apply Qpower_lt_compat_l_inv in Hlt; [lia | reflexivity].
Qed.

Lemma Qabs_nonneg_eq (q : Q) : (0 <= q)%Q -> Qabs q = q.
Proof.
  destruct q as [[|n|n] d]; unfold Qle; cbn; intros H; try reflexivity; lia.
Qed.

Lemma binade_mono (x y : Q) : (0 < x)%Q -> (x <= y)%Q -> binade x <= binade y.
Proof.
  intros Hx Hxy. unfold binade.
  assert (Hy : (0 < y)%Q) by (eapply Qlt_le_trans; eassumption).
  rewrite (Qabs_nonneg_eq x), (Qabs_nonneg_eq y) by now apply Qlt_le_weak.
  pose proof (ilog2_mono x y Hx Hxy). lia.
Qed.

Lemma binade_opp (q : Q) : binade (- q) = binade q.
Proof.
  unfold binade. f_equal.
  destruct q as [[|n|n] d]; reflexivity.
Qed.

Lemma round_half_even_opp (x : Q) : round_half_even (- x) = - round_half_even x.
Proof.
  unfold round_half_even.
  destruct (Qeq_dec x (inject_Z (Qfloor x))) as [Hint | Hfrac].
  - assert (Hf : Qfloor (- x) = - Qfloor x).
    { rewrite Hint at 1. rewrite <- inject_Z_opp. apply Qfloor_Z. }
    rewrite Hf.
    assert (H1 : (- x - inject_Z (- Qfloor x) ?= 1 # 2)%Q = Lt).
    { apply (proj1 (Qlt_alt _ _)). rewrite inject_Z_opp. lra. }
    assert (H2 : (x - inject_Z (Qfloor x) ?= 1 # 2)%Q = Lt).
    { apply (proj1 (Qlt_alt _ _)). lra. }
    now rewrite H1, H2.
  - pose proof (Qfloor_le x) as Hlo. pose proof (Qlt_floor x) as Hup.
    assert (Hlo' : (inject_Z (Qfloor x) < x)%Q).
    { apply Qle_lteq in Hlo. destruct Hlo as [H | H]; [exact H |].
      exfalso. apply Hfrac. now symmetry. }
    assert (Hf : Qfloor (- x) = - Qfloor x - 1).
    { pose proof (Qfloor_le (- x)) as A. pose proof (Qlt_floor (- x)) as B.
      rewrite inject_Z_plus in Hup, B. change (inject_Z 1) with 1%Q in Hup, B.
      assert (C : (inject_Z (Qfloor (- x)) < inject_Z (- Qfloor x))%Q)
        by (rewrite inject_Z_opp; lra).
      assert (D : (inject_Z (- Qfloor x - 1) < inject_Z (Qfloor (- x) + 1))%Q).
      { unfold Z.sub. rewrite !inject_Z_plus, !inject_Z_opp.
        change (inject_Z 1) with 1%Q. lra. }
      rewrite <- Zlt_Qlt in C, D. lia. }
    rewrite Hf.
    assert (Hrel : (- x - inject_Z (- Qfloor x - 1) == 1 - (x - inject_Z (Qfloor x)))%Q).
    { unfold Z.sub. rewrite !inject_Z_plus, !inject_Z_opp.
      change (inject_Z 1) with 1%Q. ring. }
    destruct (x - inject_Z (Qfloor x) ?= 1 # 2)%Q eqn:Hc;
      first [apply Qeq_alt in Hc | apply Qlt_alt in Hc | apply Qgt_alt in Hc].
    + assert (H1 : (- x - inject_Z (- Qfloor x - 1) ?= 1 # 2)%Q = Eq).
      { apply (proj1 (Qeq_alt _ _)). rewrite Hrel, Hc. reflexivity. }
      rewrite H1.
      replace (- Qfloor x - 1) with (- (Qfloor x + 1)) by lia.
      rewrite Z.even_opp, Z.even_add. cbn [Z.even].
      destruct (Z.even (Qfloor x)); cbn; lia.
    + assert (H1 : (- x - inject_Z (- Qfloor x - 1) ?= 1 # 2)%Q = Gt).
      { apply (proj1 (Qgt_alt _ _)). rewrite Hrel. lra. }
      rewrite H1. lia.
    + assert (H1 : (- x - inject_Z (- Qfloor x - 1) ?= 1 # 2)%Q = Lt).
      { apply (proj1 (Qlt_alt _ _)). rewrite Hrel. lra. }
      rewrite H1. lia.
Qed.

Lemma nearest_opp (q : Q) : (nearest (- q) == - nearest q)%Q.
Proof.
  unfold nearest. rewrite binade_opp.
  assert (E : (- q * 2 ^ (52 - binade q) == - (q * 2 ^ (52 - binade q)))%Q) by ring.
  assert (R : round_half_even (- q * 2 ^ (52 - binade q))
              = - round_half_even (q * 2 ^ (52 - binade q))).
  { rewrite <- round_half_even_opp.
    unfold round_half_even.
    assert (F : Qfloor (- q * 2 ^ (52 - binade q)) = Qfloor (- (q * 2 ^ (52 - binade q))))
      by now rewrite E.
    rewrite F. now rewrite E. }
  rewrite R, inject_Z_opp. ring.
Qed.

Lemma nearest_le_pow2 (q : Q) (k : Z) :
  (q <= 2 ^ (k + 1))%Q -> binade q <= k -> (nearest q <= 2 ^ (k + 1))%Q.
Proof.
  intros Hq Hk. unfold nearest. set (e := binade q) in *.
  assert (Hm : round_half_even (q * 2 ^ (52 - e)) <= 2 ^ (53 + (k - e))).
  { apply round_half_even_le. rewrite <- pow2_inject by lia.
    assert (Hp : (2 ^ (53 + (k - e)) == 2 ^ (k + 1) * 2 ^ (52 - e))%Q).
    { rewrite pow2_mul. now replace (k + 1 + (52 - e)) with (53 + (k - e)) by lia. }
    rewrite Hp.
    apply Qmult_le_compat_r; [exact Hq | apply Qlt_le_weak, pow2_pos]. }
  rewrite Zle_Qle in Hm. rewrite <- pow2_inject in Hm by lia.
  assert (Hp : (2 ^ (k + 1) == 2 ^ (53 + (k - e)) * 2 ^ (e - 52))%Q).
  { rewrite pow2_mul. now replace (53 + (k - e) + (e - 52)) with (k + 1) by lia. }
  rewrite Hp.
  apply Qmult_le_compat_r; [exact Hm | apply Qlt_le_weak, pow2_pos].
Qed.

Lemma nearest_ge_pow2 (q : Q) :
  (2 ^ binade q <= q)%Q -> (2 ^ binade q <= nearest q)%Q.
Proof.
  intros Hq. unfold nearest. set (e := binade q) in *.
  assert (Hm : 2 ^ 52 <= round_half_even (q * 2 ^ (52 - e))).
  { apply round_half_even_ge. rewrite <- pow2_inject by lia.
    assert (Hp : (2 ^ 52 == 2 ^ e * 2 ^ (52 - e))%Q).
    { rewrite pow2_mul. now replace (e + (52 - e)) with 52 by lia. }
    rewrite Hp.
    apply Qmult_le_compat_r; [exact Hq | apply Qlt_le_weak, pow2_pos]. }
  rewrite Zle_Qle in Hm. rewrite <- pow2_inject in Hm by lia.
  assert (Hp : (2 ^ e == 2 ^ 52 * 2 ^ (e - 52))%Q).
  { rewrite pow2_mul. now replace (52 + (e - 52)) with e by lia. }
  rewrite Hp.
  apply Qmult_le_compat_r; [exact Hm | apply Qlt_le_weak, pow2_pos].
Qed.

Lemma nearest_mono_pos (x y : Q) :
  (0 < x)%Q -> (x <= y)%Q -> (nearest x <= nearest y)%Q.
Proof.
  intros Hx Hxy.
  assert (Hy : (0 < y)%Q) by (eapply Qlt_le_trans; eassumption).
  pose proof (binade_mono x y Hx Hxy) as He.
  destruct (Z.eq_dec (binade x) (binade y)) as [E | N].
  - unfold nearest. rewrite E.
    apply Qmult_le_compat_r; [| apply Qlt_le_weak, pow2_pos].
    rewrite <- Zle_Qle. apply round_half_even_mono.
    apply Qmult_le_compat_r; [exact Hxy | apply Qlt_le_weak, pow2_pos].
  - assert (Hlt : binade x + 1 <= binade y) by lia.
    apply Qle_trans with (2 ^ (binade x + 1))%Q.
    + apply nearest_le_pow2; [| lia].
      destruct (ilog2_spec x Hx) as [_ Hup].
      apply Qlt_le_weak. eapply Qlt_le_trans; [exact Hup |].
      apply pow2_le. unfold binade. rewrite (Qabs_nonneg_eq x) by now apply Qlt_le_weak.
      lia.
    + apply Qle_trans with (2 ^ binade y)%Q; [now apply pow2_le |].
      apply nearest_ge_pow2.
      assert (Eb : binade y = ilog2 y).
      { unfold binade in *. rewrite (Qabs_nonneg_eq y) in * by now apply Qlt_le_weak.
        lia. }
      rewrite Eb. now destruct (ilog2_spec y Hy).
Qed.

Lemma nearest_nonneg (q : Q) : (0 <= q)%Q -> (0 <= nearest q)%Q.
Proof.
  intros Hq. unfold nearest.
  apply Qmult_le_0_compat; [| apply Qlt_le_weak, pow2_pos].
  change 0%Q with (inject_Z 0). rewrite <- Zle_Qle.
  apply round_half_even_ge. change (inject_Z 0) with 0%Q.
  apply Qmult_le_0_compat; [exact Hq | apply Qlt_le_weak, pow2_pos].
Qed.

Lemma nearest_nonpos (q : Q) : (q <= 0)%Q -> (nearest q <= 0)%Q.
Proof.
  intros Hq. pose proof (nearest_nonneg (- q) ltac:(lra)) as H.
  rewrite nearest_opp in H. lra.
Qed.

Lemma nearest_mono (x y : Q) : (x <= y)%Q -> (nearest x <= nearest y)%Q.
Proof.
  intros Hxy.
  destruct (Qlt_le_dec 0 x) as [Hx | Hx]; [now apply nearest_mono_pos |].
  destruct (Qlt_le_dec y 0) as [Hy | Hy].
  - pose proof (nearest_mono_pos (- y) (- x) ltac:(lra) ltac:(lra)) as H.
    rewrite !nearest_opp in H. lra.
  - pose proof (nearest_nonpos x Hx). pose proof (nearest_nonneg y Hy). lra.
Qed.

Lemma overflow_iff (r : Q) :
  Qle_bool (2 ^ 1024) (Qabs r) = true <-> (r <= - 2 ^ 1024 \/ 2 ^ 1024 <= r)%Q.
Proof.
  rewrite Qle_bool_iff. pose proof (pow2_pos 1024) as Hp.
  set (B := (2 ^ 1024)%Q) in *. clearbody B.
  destruct (Qlt_le_dec r 0) as [Hr | Hr].
  - rewrite (Qabs_neg r) by now apply Qlt_le_weak. split; [intros H; left; lra |].
    intros [H | H]; lra.
  - rewrite (Qabs_pos r) by exact Hr. split; [now right |].
    intros [H | H]; lra.
Qed.

Lemma classify_cases (r : Q) :
  (classify r = Finite r /\ (- 2 ^ 1024 < r < 2 ^ 1024)%Q)
  \/ (classify r = PosInf /\ (2 ^ 1024 <= r)%Q)
  \/ (classify r = NegInf /\ (r <= - 2 ^ 1024)%Q).
Proof.
  unfold classify. pose proof (pow2_pos 1024) as Hp.
  pose proof (overflow_iff r) as Ho.
  set (B := (2 ^ 1024)%Q) in *. clearbody B.
  destruct (Qle_bool B (Qabs r)) eqn:Hc.
  - destruct (proj1 Ho eq_refl) as [H | H].
    + right; right. split; [| exact H].
      destruct (Qle_bool 0 r) eqn:Hs; [| reflexivity].
      apply Qle_bool_iff in Hs. exfalso; lra.
    + right; left. split; [| exact H].
      destruct (Qle_bool 0 r) eqn:Hs; [reflexivity |].
      assert (Hs' : Qle_bool 0 r = true) by (apply Qle_bool_iff; lra). congruence.
  - left. split; [reflexivity |].
    split; apply Qnot_le_lt; intros H; enough (false = true) by discriminate;
      apply (proj2 Ho); [left | right]; lra.
Qed.

Lemma classify_mono (r1 r2 : Q) :
  (r1 <= r2)%Q -> float_le (classify r1) (classify r2).
Proof.
  intros H.
  destruct (classify_cases r1) as [[-> A] | [[-> A] | [-> A]]];
    destruct (classify_cases r2) as [[-> B] | [[-> B] | [-> B]]];
    cbn; try exact I; try exact H; lra.
Qed.

Lemma to_double_mono (x y : Q) :
  (x <= y)%Q -> float_le (to_double x) (to_double y).
Proof.
  intros Hxy. unfold to_double. apply classify_mono. rewrite !Qred_correct.
  assert (Hz : forall q, ((if Qeq_bool q 0 then 0 else nearest q) == nearest q)%Q).
  { intros q. destruct (Qeq_bool q 0) eqn:Hq; [| reflexivity].
    apply Qeq_bool_iff in Hq.
    pose proof (nearest_nonneg q ltac:(lra)). pose proof (nearest_nonpos q ltac:(lra)).
    lra. }
  rewrite !Hz. now apply nearest_mono.
Qed.


(** Between two doubles, a rational is rounded to a double between them. *)
Lemma to_double_range (q lo hi : Q) :
  to_double lo = Finite lo -> to_double hi = Finite hi ->
  (lo <= q <= hi)%Q ->
  exists r, to_double q = Finite r /\ (lo <= r <= hi)%Q.
Proof.
  intros Elo Ehi [H1 H2].
  pose proof (to_double_mono lo q H1) as A. pose proof (to_double_mono q hi H2) as B.
  rewrite Elo in A. rewrite Ehi in B.
  destruct (to_double q) as [r | | |] eqn:E; cbn in A, B; try contradiction.
  exists r. now split.
Qed.

(** ** [round] and the product by 100 *)

Lemma py_round_2 q :
  py_round (Finite q) 2 = to_double (round_half_even (q * (100 # 1)) # 100).
Proof. reflexivity. Qed.

Lemma hundredths_scale (z : Z) : ((z # 100) * (100 # 1) == inject_Z z)%Q.
Proof. unfold Qeq, Qmult, inject_Z. cbn [Qnum Qden]. lia. Qed.

(** The two-decimal number that [round(x, 2)] goes through is within half
    of 0.01 of [x]. *)
Lemma hundredths_near x :
  (Qabs ((round_half_even (x * (100 # 1)) # 100) - x) <= 1 # 200)%Q.
Proof.
  pose proof (round_half_even_near (x * (100 # 1))%Q) as Hn.
  apply Qabs_Qle_condition in Hn. apply Qabs_Qle_condition.
  pose proof (hundredths_scale (round_half_even (x * (100 # 1))%Q)) as Hs.
  split; lra.
Qed.





Lemma to_double_0 : to_double 0 = Finite 0.
Proof. vm_compute. reflexivity. Qed.

Lemma to_double_100 : to_double 100 = Finite 100.
Proof. vm_compute. reflexivity. Qed.

(** A score in [0, 1] is presented as a float in [0, 100]. *)
Lemma py_round_percentage p :
  (0 <= p <= 1)%Q -> float_between 0 100 (py_round (float_mul p 100) 2).
Proof.
  intros [H0 H1]. unfold float_mul.
  destruct (to_double_range (p * 100) 0 100 to_double_0 to_double_100)
    as (x & -> & Hx0 & Hx1); [split; lra |].
  rewrite py_round_2.
  destruct (to_double_range (round_half_even (x * (100 # 1)) # 100) 0 100
              to_double_0 to_double_100) as (q & -> & Hq); [| exact Hq].
  assert (Hb : 0 <= round_half_even (x * (100 # 1))%Q <= 10000).
  { apply round_half_even_between.
    change (inject_Z 0) with 0%Q. change (inject_Z 10000) with (10000 # 1)%Q.
    split; lra. }
  unfold Qle. cbn [Qnum Qden]. lia.
Qed.

(** The rounding goes by the binary value of the float: 100 times the
    double nearest to 0.00165 is a double just above 0.165, and [round]
    gives the double nearest to 0.17. *)
Example py_round_follows_the_binary_value :
  exists d, to_double (165 # 100000) = Finite d
            /\ py_round (float_mul d 100) 2 = to_double (17 # 100).
Proof. eexists. split; [vm_compute; reflexivity |]. vm_compute. reflexivity. Qed.

(** A product beyond the largest double is an infinity, which [round]
    returns as it is. *)
Example py_round_of_an_overflow :
  py_round (float_mul (10 ^ 308) 100) 2 = PosInf.
Proof. vm_compute. reflexivity. Qed.

(** ** The rows behind a response *)

Section Response.

Context `{PandasSort}.

Lemma recommend_properties_outcome req w rows :
  heap w !! property_data w = Some rows ->
  (recommend_properties req w).1 = pipeline rows (model_bundle w) req.
Proof.
  intros Hpd. destruct (recommend_properties_run req w rows Hpd) as (w' & -> & _).
  reflexivity.
Qed.

(** Every returned record presents one candidate row, with the prediction
    the model made for that row. *)
Lemma response_rows req w rows resp :
  heap w !! property_data w = Some rows ->
  (recommend_properties req w).1 = Return resp ->
  let cands := candidates (user_preferences req) rows in
  Forall (fun rec =>
            exists i r p preds,
              cands !! i = Some r
              /\ score_rows (model_bundle w) cands = Return preds
              /\ preds !! i = Some p
              /\ rec = recommend_of (p, row_set_score p r))
         (recommendations resp).
Proof.
  intros Hpd Hret. rewrite (recommend_properties_outcome _ _ _ Hpd) in Hret.
  apply pipeline_Return in Hret as [[_ ->] | (preds & _ & Hs & _ & ->)];
    cbn [recommendations]; [constructor |].
  apply Forall_fmap, Forall_forall. intros [p s] Hin.
  apply ranked_origin in Hin as (i & r & Hp & Hr & Hs').
  cbn [fst snd] in *. subst s.
  exists i, r, p, preds. auto.
Qed.

End Response.

Lemma underlies_recommend_of p r : underlies r (recommend_of (p, row_set_score p r)).
Proof. repeat split. Qed.

(** ** Order and length of a response *)


Lemma head_rows_length {A} n (l : list A) :
  length (head_rows n l)
  = if 0 <=? n then Nat.min (Z.to_nat n) (length l)
    else (length l - Z.to_nat (- n))%nat.
Proof.
  unfold head_rows. destruct (0 <=? n); rewrite length_take; [reflexivity | lia].
Qed.

Lemma ranked_length `{PandasSort} n preds cands :
  length preds = length cands ->
  length (ranked n preds cands)
  = if 0 <=? n then Nat.min (Z.to_nat n) (length cands)
    else (length cands - Z.to_nat (- n))%nat.
Proof.
  intros Hlen. unfold ranked. rewrite head_rows_length.
  rewrite (Permutation_length (sort_values_perm quicksort _)).
  rewrite !length_zip_with. rewrite Hlen.
  now rewrite !Nat.min_id.
Qed.

(** ** Ties under a sort that keeps them in order *)




Lemma keyed_ids preds cands :
  length preds = length cands ->
  (fun kr : Keyed => row_property_id kr.2)
    <$> zip preds (zip_with row_set_score preds cands)
  = row_property_id <$> cands.
Proof.
  revert cands. induction preds as [|p preds IH]; intros [|c cands] Hlen;
    try discriminate; [reflexivity |].
  cbn [zip_with fmap list_fmap snd row_property_id row_set_score].
  f_equal. apply IH. cbn in Hlen. lia.
Qed.


Section Ties.

Context `{PandasSort}.


End Ties.

(** ** Selection of the feature columns *)

Lemma omapM_Forall2 {A B} (f : A -> Outcome B) (l : list A) (l' : list B) :
  Forall2 (fun x y => f x = Return y) l l' -> omapM f l = Return l'.
Proof.
  induction 1 as [|x y l l' Hx _ IH]; [reflexivity |].
  cbn [omapM]. rewrite Hx, IH. reflexivity.
Qed.

Lemma select_row_Forall2 features r vs :
  Forall2 (fun c v => row_get c r = Some v) features vs ->
  select_row features r = Return vs.
Proof.
  intros Hcols. unfold select_row. apply omapM_Forall2.
  eapply Forall2_impl; [exact Hcols |].
  cbn beta. intros c v ->. reflexivity.
Qed.

(** ** A global that names no table *)

Lemma recommend_properties_dangling `{PandasSort} req w :
  heap w !! property_data w = None ->
  recommend_properties req w = (Raise AttributeError, w).
Proof.
  intros Hpd. unfold recommend_properties.
  erewrite bind_Return by reflexivity.
  erewrite bind_Raise; [reflexivity |].
  unfold df_empty, bind, deref. now rewrite Hpd.
Qed.

(** * The properties of the specification, C1 to C10 *)

(** C1. The table the preference filter leaves is the table's rows that
    satisfy the conjunction of the seven predicates, in source order
    ([filter] keeps order, and the result is a sublist of the table); and
    every record of a response presents a row of the table that satisfies
    the conjunction.  A city counts as specified when the field holds a
    non-empty string. *)
Theorem preference_filter_is_conjunction `{PandasSort} req w rows :
  heap w !! property_data w = Some rows ->
  let prefs := user_preferences req in
  (exists l w',
      preference_filter prefs (property_data w) w = (Return l, w')
      /\ heap w' !! l = Some (filter (Satisfies prefs) rows))
  /\ filter (Satisfies prefs) rows `sublist_of` rows
  /\ (forall resp,
        (recommend_properties req w).1 = Return resp ->
        Forall (fun rec => exists r, r ∈ rows /\ Satisfies prefs r /\ underlies r rec)
               (recommendations resp)).
Proof.
  intros Hpd prefs. split; [| split].
  - destruct (preference_filter_run prefs _ w rows Hpd) as (l & w' & E & _ & _ & Hl).
    exists l, w'. split; [exact E |]. now rewrite <- candidates_filter.
  - apply sublist_filter.
  - intros resp Hret.
    pose proof (response_rows req w rows resp Hpd Hret) as Hrows.
    cbv zeta in Hrows. eapply Forall_impl; [exact Hrows |].
    intros rec (i & r & p & preds & Hr & _ & _ & ->).
    exists r. fold prefs in Hr. rewrite candidates_filter in Hr.
    apply list_elem_of_lookup_2 in Hr. apply list_elem_of_filter in Hr as [Hs Hin].
    repeat split; try assumption; apply Hs.
Qed.

Lemma preference_filter_is_conjunction_witness :
  let prefs := user_preferences Sample.request in
  let w := Sample.world Sample.classifier in
  (exists l w',
      preference_filter prefs (property_data w) w = (Return l, w')
      /\ heap w' !! l = Some (filter (Satisfies prefs) Sample.table))
  /\ filter (Satisfies prefs) Sample.table `sublist_of` Sample.table
  /\ (forall resp,
        (@recommend_properties InsertionSort.stable_sort Sample.request w).1
        = Return resp ->
        Forall (fun rec => exists r, r ∈ Sample.table /\ Satisfies prefs r
                                     /\ underlies r rec)
               (recommendations resp)).
Proof.
  exact (@preference_filter_is_conjunction InsertionSort.stable_sort
           Sample.request (Sample.world Sample.classifier) Sample.table eq_refl).
Defined.

(** C2, as stated, fails: the score need not lie in [0, 100].  A model
    without [predict_proba] is scored through [predict] (line 107), whose
    output is used as it is; for the regressor of [Sample] the first record
    gets the score 45000000. *)
Lemma score_range_counterexample :
  ~ (forall resp,
       (@recommend_properties InsertionSort.stable_sort Sample.request
          (Sample.world Sample.regressor)).1 = Return resp ->
       Forall (fun rec => float_between 0 100 (score rec)) (recommendations resp)).
Proof.
  intros Hclaim.
  destruct (@recommend_properties InsertionSort.stable_sort Sample.request
              (Sample.world Sample.regressor)).1 as [resp|e] eqn:E;
    vm_compute in E; [| discriminate].
  specialize (Hclaim resp eq_refl).
  injection E as <-. cbn [recommendations] in Hclaim.
  apply Forall_inv in Hclaim. destruct Hclaim as [_ Hle].
  vm_compute in Hle. now apply Hle.
Qed.

(** C2, amended.  Every record of a response presents a candidate row, and
    its score is the float product of the prediction made for that row
    and 100, rounded by [round(_, 2)].  When the product is finite, the
    score is the double nearest to a whole number of hundredths that is at
    most half a hundredth away from the product; when the product
    overflows, the score is that infinity.  The score lies in [0, 100]
    whenever the prediction lies in [0, 1]. *)
Theorem score_is_rounded_hundredfold `{PandasSort} req w rows resp :
  heap w !! property_data w = Some rows ->
  (recommend_properties req w).1 = Return resp ->
  let cands := candidates (user_preferences req) rows in
  Forall (fun rec =>
            exists i r p preds,
              cands !! i = Some r
              /\ underlies r rec
              /\ score_rows (model_bundle w) cands = Return preds
              /\ preds !! i = Some p
              /\ score rec = py_round (float_mul p 100) 2
              /\ (forall x, float_mul p 100 = Finite x ->
                    exists n : Z,
                      score rec = to_double (n # 100)
                      /\ (Qabs ((n # 100) - x) <= 1 # 200)%Q)
              /\ (forall x, float_mul p 100 = x ->
                    x = PosInf \/ x = NegInf -> score rec = x)
              /\ ((0 <= p <= 1)%Q -> float_between 0 100 (score rec)))
         (recommendations resp).
Proof.
  intros Hpd Hret cands.
  pose proof (response_rows req w rows resp Hpd Hret) as Hrows.
  cbv zeta in Hrows. eapply Forall_impl; [exact Hrows |].
  intros rec (i & r & p & preds & Hr & Hs & Hp & ->).
  exists i, r, p, preds. cbn [score recommend_of fst snd].
  split; [exact Hr |]. split; [apply underlies_recommend_of |].
  split; [exact Hs |]. split; [exact Hp |]. split; [reflexivity |].
  split; [| split].
  - intros x ->. rewrite py_round_2. eexists. split; [reflexivity |].
    apply hundredths_near.
  - intros x -> [-> | ->]; reflexivity.
  - apply py_round_percentage.
Qed.

Lemma score_is_rounded_hundredfold_witness :
  exists resp,
    (@recommend_properties InsertionSort.stable_sort Sample.request
       (Sample.world Sample.classifier)).1 = Return resp
    /\ Forall (fun rec =>
                 exists i r p preds,
                   candidates default_preferences Sample.table !! i = Some r
                   /\ underlies r rec
                   /\ score_rows (Sample.bundle_of Sample.classifier)
                                 (candidates default_preferences Sample.table)
                      = Return preds
                   /\ preds !! i = Some p
                   /\ score rec = py_round (float_mul p 100) 2
                   /\ (forall x, float_mul p 100 = Finite x ->
                         exists n : Z,
                           score rec = to_double (n # 100)
                           /\ (Qabs ((n # 100) - x) <= 1 # 200)%Q)
                   /\ (forall x, float_mul p 100 = x ->
                         x = PosInf \/ x = NegInf -> score rec = x)
                   /\ ((0 <= p <= 1)%Q -> float_between 0 100 (score rec)))
              (recommendations resp).
Proof.
  eexists. split; [vm_compute; reflexivity |].
  refine (@score_is_rounded_hundredfold InsertionSort.stable_sort Sample.request
            (Sample.world Sample.classifier) Sample.table _ eq_refl _).
  vm_compute. reflexivity.
Defined.

(** C4.  With a table that has candidates for the request and a bundle that
    was never loaded, the handler reads [model_bundle['model']] and the
    [KeyError] leaves the handler uncaught: the outcome is not an
    [HTTPException] with a detail, as for the empty table, and the
    framework answers with a bare 500.  No record is returned. *)
Theorem absent_bundle_raises_KeyError `{PandasSort} req w rows :
  heap w !! property_data w = Some rows ->
  model_bundle w = empty_bundle ->
  filter (Satisfies (user_preferences req)) rows <> [] ->
  (recommend_properties req w).1 = Raise (KeyError "model")
  /\ respond (recommend_properties req w).1
     = mkHTTP 500 (PlainText "Internal Server Error").
Proof.
  intros Hpd Hb Hsome. rewrite <- candidates_filter in Hsome.
  rewrite (recommend_properties_outcome _ _ _ Hpd), Hb.
  unfold pipeline. destruct rows as [|r0 rows'].
  { rewrite candidates_filter in Hsome. contradiction. }
  cbv zeta.
  destruct (candidates (user_preferences req) (r0 :: rows')); [contradiction |].
  split; reflexivity.
Qed.

Lemma absent_bundle_raises_KeyError_witness :
  (@recommend_properties InsertionSort.stable_sort Sample.request
     (lifespan (Return Sample.table) (Raise (ModelError "no such file")))).1
  = Raise (KeyError "model")
  /\ respond (@recommend_properties InsertionSort.stable_sort Sample.request
                (lifespan (Return Sample.table)
                          (Raise (ModelError "no such file")))).1
     = mkHTTP 500 (PlainText "Internal Server Error").
Proof.
  refine (@absent_bundle_raises_KeyError InsertionSort.stable_sort Sample.request
            (lifespan (Return Sample.table) (Raise (ModelError "no such file")))
            Sample.table eq_refl eq_refl _).
  vm_compute. discriminate.
Defined.

(** C5. With an empty table the handler raises [HTTPException] with status
    500 and a detail message, which the framework sends as such; the state
    is left exactly as it was: no copy of the table was made, no selection,
    bundle access, model call or sort is on the trace. *)
Theorem empty_store_fails_before_filtering `{PandasSort} req w :
  heap w !! property_data w = Some [] ->
  recommend_properties req w
  = (Raise (HTTPException 500 "No property data available"), w)
  /\ respond (recommend_properties req w).1
     = mkHTTP 500 (JsonDetail "No property data available").
Proof.
  intros Hpd.
  assert (E : recommend_properties req w
              = (Raise (HTTPException 500 "No property data available"), w)).
  { unfold recommend_properties.
    erewrite bind_Return by reflexivity.
    erewrite bind_Return by (apply df_empty_run; eassumption).
    reflexivity. }
  split; [exact E |]. now rewrite E.
Qed.

Lemma empty_store_fails_before_filtering_witness :
  let w := lifespan (Raise (ModelError "no such file"))
                    (Return (Sample.bundle_of Sample.classifier)) in
  @recommend_properties InsertionSort.stable_sort Sample.request w
  = (Raise (HTTPException 500 "No property data available"), w)
  /\ respond (@recommend_properties InsertionSort.stable_sort Sample.request w).1
     = mkHTTP 500 (JsonDetail "No property data available").
Proof.
  exact (@empty_store_fails_before_filtering InsertionSort.stable_sort
           Sample.request
           (lifespan (Raise (ModelError "no such file"))
                     (Return (Sample.bundle_of Sample.classifier)))
           eq_refl).
Defined.

(** C6. When the table has rows and none satisfies the preferences, the
    handler returns an empty list of recommendations, answered with status
    200.  The only events are the copy and the selections: the bundle is not
    read (so the result is the same with no bundle at all), nothing is
    scored and nothing is sorted. *)
Theorem no_candidate_is_an_empty_success `{PandasSort} req w rows :
  heap w !! property_data w = Some rows ->
  rows <> [] ->
  filter (Satisfies (user_preferences req)) rows = [] ->
  exists w',
    recommend_properties req w = (Return (mkResponse []), w')
    /\ respond (recommend_properties req w).1
       = mkHTTP 200 (JsonRecommendations (mkResponse []))
    /\ grows filter_event w w'.
Proof.
  intros Hpd Hrows Hnone.
  destruct (preference_filter_run (user_preferences req) _ w rows Hpd)
    as (l & w' & E & G & _ & Hl).
  rewrite candidates_filter, Hnone in Hl.
  assert (Erun : recommend_properties req w = (Return (mkResponse []), w')).
  { unfold recommend_properties.
    erewrite bind_Return by reflexivity.
    erewrite bind_Return by (apply df_empty_run; eassumption).
    destruct rows as [|r0 rows']; [contradiction |].
    erewrite bind_Return by exact E.
    erewrite bind_Return by (apply df_empty_run; eassumption).
    reflexivity. }
  exists w'. rewrite Erun. auto.
Qed.

Lemma no_candidate_is_an_empty_success_witness :
  let req := mkRequest (mkPrefs 0 50000 None 1 60 1 [] [] "any" 0) 3 in
  let w := lifespan (Return Sample.table) (Raise (ModelError "no such file")) in
  exists w',
    @recommend_properties InsertionSort.stable_sort req w
    = (Return (mkResponse []), w')
    /\ respond (@recommend_properties InsertionSort.stable_sort req w).1
       = mkHTTP 200 (JsonRecommendations (mkResponse []))
    /\ grows filter_event w w'.
Proof.
  refine (@no_candidate_is_an_empty_success InsertionSort.stable_sort
            (mkRequest (mkPrefs 0 50000 None 1 60 1 [] [] "any" 0) 3)
            (lifespan (Return Sample.table) (Raise (ModelError "no such file")))
            Sample.table eq_refl _ _).
  - discriminate.
  - vm_compute. reflexivity.
Defined.




(** C8.  On a candidate table, with a bundle that has its three entries:
    the stage selects the columns named by the feature list, in the order
    of the list ([selected]); the scaler turns them into the matrix [X];
    the model is then called on [X], through [predict_proba] if it has one,
    the score of a row being entry 1 of its row of probabilities, and
    through [predict] otherwise, whose output is the scores.  These steps
    happen in this order, and each row ends up carrying its score. *)
Theorem scoring_stage_procedure df w cands model scaler features selected X preds :
  heap w !! df = Some cands ->
  model_bundle w = mkBundle (Some model) (Some scaler) (Some features) ->
  Forall2 (fun r vs => Forall2 (fun c v => row_get c r = Some v) features vs)
          cands selected ->
  transform scaler selected = Return X ->
  match predict_proba model with
  | Some proba =>
      exists P, proba X = Return P
                /\ Forall2 (fun row p => row !! 1%nat = Some p) P preds
  | None => predict model X = Return preds
  end ->
  length preds = length cands ->
  exists w',
    scoring_stage df w = (Return tt, w')
    /\ heap w' = <[df := zip_with row_set_score preds cands]> (heap w)
    /\ Forall2 (fun r' p => score_key r' = Return p)
               (zip_with row_set_score preds cands) preds
    /\ trace w'
       = trace w ++ [EvBundleGet "model"; EvBundleGet "scaler";
                     EvBundleGet "features"; EvSelect; EvTransform;
                     scoring_call model; EvAssign].
Proof.
  intros Hl Hb Hcols HX Hcall Hlen.
  assert (Hsel : omapM (select_row features) cands = Return selected).
  { apply omapM_Forall2. eapply Forall2_impl; [exact Hcols |].
    cbn beta. intros r vs. apply select_row_Forall2. }
  assert (Hkeys : Forall2 (fun r' p => score_key r' = Return p)
                          (zip_with row_set_score preds cands) preds).
  { clear -Hlen. revert cands Hlen.
    induction preds as [|p preds IH]; intros [|c cands] Hlen;
      try discriminate; constructor.
    - apply score_key_set.
    - apply IH. cbn in Hlen. lia. }
  apply Nat.eqb_eq in Hlen.
  unfold scoring_stage, scoring_call, bundle_item, df_select, df_assign_score,
    bind, get_model_bundle, emit, deref, lift, ret, raise, store.
  cbn [heap property_data model_bundle trace]. rewrite Hb.
  cbn [bundle_model bundle_scaler bundle_features heap property_data
       model_bundle trace].
  rewrite Hl, Hsel, HX.
  destruct (predict_proba model) as [proba|].
  - destruct Hcall as (P & HP & Hcol).
    assert (Hc1 : column1 P = Return preds).
    { unfold column1. apply omapM_Forall2.
      eapply Forall2_impl; [exact Hcol |]. cbn beta. intros row p ->. reflexivity. }
    cbn [heap property_data model_bundle trace]. rewrite HP, Hc1.
    cbn [heap property_data model_bundle trace]. rewrite Hl, Hlen.
    eexists. split; [reflexivity |].
    cbn [heap trace]. rewrite <- !app_assoc. auto.
  - cbn [heap property_data model_bundle trace]. rewrite Hcall.
    cbn [heap property_data model_bundle trace]. rewrite Hl, Hlen.
    eexists. split; [reflexivity |].
    cbn [heap trace]. rewrite <- !app_assoc. auto.
Qed.

Lemma scoring_stage_procedure_witness :
  exists w',
    scoring_stage 0%nat (Sample.world Sample.classifier) = (Return tt, w')
    /\ heap w'
       = <[0%nat := zip_with row_set_score [(1 # 2)%Q; (1 # 2)%Q; (1 # 2)%Q]
                             Sample.table]>
           (heap (Sample.world Sample.classifier))
    /\ Forall2 (fun r' p => score_key r' = Return p)
               (zip_with row_set_score [(1 # 2)%Q; (1 # 2)%Q; (1 # 2)%Q]
                         Sample.table)
               [(1 # 2)%Q; (1 # 2)%Q; (1 # 2)%Q]
    /\ trace w'
       = trace (Sample.world Sample.classifier)
         ++ [EvBundleGet "model"; EvBundleGet "scaler"; EvBundleGet "features";
             EvSelect; EvTransform; scoring_call Sample.classifier; EvAssign].
Proof.
  refine (scoring_stage_procedure 0%nat (Sample.world Sample.classifier)
            Sample.table Sample.classifier Sample.scaler ["sqft"; "bedrooms"]
            [[VInt 1500; VInt 3]; [VInt 2000; VInt 4]; [VInt 900; VInt 2]]
            [[inject_Z 1500; inject_Z 3]; [inject_Z 2000; inject_Z 4];
             [inject_Z 900; inject_Z 2]]
            [(1 # 2)%Q; (1 # 2)%Q; (1 # 2)%Q]
            eq_refl eq_refl _ _ _ eq_refl).
  - repeat constructor.
  - vm_compute. reflexivity.
  - cbn. eexists. split; [reflexivity |]. repeat constructor.
Defined.


(** C9. A request leaves both globals as they were: [property_data] still
    names the same table with the same rows, [model_bundle] is the same
    bundle, and every table that existed before the request is unchanged;
    whatever the request built or modified lies in tables allocated by the
    request itself, behind the old ones. *)
Theorem request_leaves_globals_unchanged `{PandasSort} req w :
  let w' := (recommend_properties req w).2 in
  property_data w' = property_data w
  /\ model_bundle w' = model_bundle w
  /\ heap w' !! property_data w' = heap w !! property_data w
  /\ exists fresh, heap w' = heap w ++ fresh.
Proof.
  cbv zeta. destruct (heap w !! property_data w) as [rows|] eqn:Hpd.
  - destruct (recommend_properties_run req w rows Hpd) as (w' & -> & G).
    cbn [snd]. destruct G as [Hp Hb [ext Hh] _].
    repeat split; try assumption.
    + rewrite Hp, Hh. now apply lookup_app_l_Some.
    + now exists ext.
  - rewrite (recommend_properties_dangling req w Hpd). cbn [snd].
    repeat split; try assumption. exists []. now rewrite app_nil_r.
Qed.

(** C10. The outcome of a request is a function of the table, the bundle
    and the request body: two states that agree on the table and on the
    bundle give the same outcome, hence the same response; in particular
    repeating a request in the state the first evaluation left gives the
    same outcome again. *)
Theorem handler_is_deterministic `{PandasSort} req w rows :
  heap w !! property_data w = Some rows ->
  (forall w2,
      heap w2 !! property_data w2 = Some rows ->
      model_bundle w2 = model_bundle w ->
      (recommend_properties req w2).1 = (recommend_properties req w).1
      /\ respond (recommend_properties req w2).1
         = respond (recommend_properties req w).1)
  /\ (recommend_properties req (recommend_properties req w).2).1
     = (recommend_properties req w).1.
Proof.
  intros Hpd.
  assert (Hsame : forall w2,
             heap w2 !! property_data w2 = Some rows ->
             model_bundle w2 = model_bundle w ->
             (recommend_properties req w2).1 = (recommend_properties req w).1).
  { intros w2 Hpd2 Hb.
    rewrite (recommend_properties_outcome req w2 rows Hpd2).
    rewrite (recommend_properties_outcome req w rows Hpd).
    now rewrite Hb. }
  split.
  - intros w2 Hpd2 Hb. split; [now apply Hsame |]. now rewrite Hsame.
  - destruct (recommend_properties_run req w rows Hpd) as (w' & E & G).
    apply Hsame; rewrite E; cbn [snd].
    + rewrite (grows_property_data _ _ _ G). eapply grows_lookup; eassumption.
    + exact (grows_model_bundle _ _ _ G).
Qed.

Lemma handler_is_deterministic_witness :
  let w := Sample.world Sample.classifier in
  (forall w2,
      heap w2 !! property_data w2 = Some Sample.table ->
      model_bundle w2 = model_bundle w ->
      (@recommend_properties InsertionSort.stable_sort Sample.request w2).1
      = (@recommend_properties InsertionSort.stable_sort Sample.request w).1
      /\ respond (@recommend_properties InsertionSort.stable_sort Sample.request w2).1
         = respond (@recommend_properties InsertionSort.stable_sort Sample.request w).1)
  /\ (@recommend_properties InsertionSort.stable_sort Sample.request
        (@recommend_properties InsertionSort.stable_sort Sample.request w).2).1
     = (@recommend_properties InsertionSort.stable_sort Sample.request w).1.
Proof.
  exact (@handler_is_deterministic InsertionSort.stable_sort Sample.request
           (Sample.world Sample.classifier) Sample.table eq_refl).
Defined.

(** * Further properties of the handler *)

(** ** Failures of the scoring stage *)

Lemma omapM_Raise_elem {A B} (f : A -> Outcome B) (l : list A) e :
  omapM f l = Raise e -> exists x, x ∈ l /\ f x = Raise e.
Proof.
  induction l as [|x l IH]; cbn [omapM]; [discriminate |].
  destruct (f x) as [y|e'] eqn:Hx; cbn [obind].
  - destruct (omapM f l) as [ys|e']; cbn [obind]; [discriminate |].
    intros [= ->]. destruct (IH eq_refl) as (x' & Hin & Hx').
    exists x'. split; [now right | exact Hx'].
  - intros [= ->]. exists x. split; [now left | exact Hx].
Qed.

Lemma omapM_Exists_Raise {A B} (f : A -> Outcome B) (l : list A) :
  Exists (fun x => exists e, f x = Raise e) l -> exists e, omapM f l = Raise e.
Proof.
  induction l as [|x l IH]; intros Hex; [inversion Hex |].
  cbn [omapM]. destruct (f x) as [y|e'] eqn:Hx; cbn [obind]; [| eauto].
  apply Exists_cons in Hex as [[e He] | Hex]; [congruence |].
  destruct (IH Hex) as [e ->]. cbn [obind]. eauto.
Qed.

Lemma candidates_nil prefs : candidates prefs [] = [].
Proof.
  unfold candidates. cbn [List.filter].
  destruct (truthy_str (city prefs));
    destruct (bool_decide ("pool" ∈ must_have_features prefs)); reflexivity.
Qed.

Section Failures.

Context `{PandasSort}.

(** With candidates, the outcome is the one of scoring, assignment and
    presentation. *)
Lemma pipeline_candidates rows b req :
  candidates (user_preferences req) rows <> [] ->
  pipeline rows b req
  = obind (obind (score_rows b (candidates (user_preferences req) rows))
                 (assigned (candidates (user_preferences req) rows)))
          (present (max_results req)).
Proof.
  intros Hc. unfold pipeline. destruct rows as [|r0 rows'].
  { now rewrite candidates_nil in Hc. }
  cbv zeta. destruct (candidates (user_preferences req) (r0 :: rows'));
    [contradiction | reflexivity].
Qed.

Lemma failed_scoring_outcome req w rows e :
  heap w !! property_data w = Some rows ->
  filter (Satisfies (user_preferences req)) rows <> [] ->
  score_rows (model_bundle w) (candidates (user_preferences req) rows) = Raise e ->
  (recommend_properties req w).1 = Raise e.
Proof.
  intros Hpd Hsome Hs. rewrite <- candidates_filter in Hsome.
  rewrite (recommend_properties_outcome _ _ _ Hpd).
  rewrite pipeline_candidates by assumption. now rewrite Hs.
Qed.

(** X2.  When the model has [predict_proba] and some row of the matrix it
    returns has fewer than two entries, taking column 1 fails: the request
    ends in [IndexError]. *)
Theorem single_class_probabilities_are_an_IndexError
        req w rows model scaler features selected X proba P :
  heap w !! property_data w = Some rows ->
  filter (Satisfies (user_preferences req)) rows <> [] ->
  model_bundle w = mkBundle (Some model) (Some scaler) (Some features) ->
  omapM (select_row features) (filter (Satisfies (user_preferences req)) rows)
  = Return selected ->
  transform scaler selected = Return X ->
  predict_proba model = Some proba ->
  proba X = Return P ->
  Exists (fun row => row !! 1%nat = None) P ->
  (recommend_properties req w).1 = Raise IndexError.
Proof.
  intros Hpd Hsome Hb Hsel HX Hpp HP Hex.
  apply (failed_scoring_outcome req w rows _ Hpd Hsome).
  rewrite <- candidates_filter in Hsel.
  unfold score_rows. rewrite Hb.
  cbn [bundle_model bundle_scaler bundle_features need obind].
  rewrite Hsel. cbn [obind]. rewrite HX. cbn [obind]. rewrite Hpp, HP. cbn [obind].
  destruct (omapM_Exists_Raise
              (fun row : list Q => match row !! 1%nat with
                                   | Some p => Return p
                                   | None => Raise IndexError
                                   end) P) as [e He].
  { eapply Exists_impl; [exact Hex |]. cbn beta. intros row ->. eauto. }
  unfold column1. rewrite He.
  apply omapM_Raise_elem in He as (row & _ & Hrow).
  destruct (row !! 1%nat); [discriminate | congruence].
Qed.

(** X3.  An exception of the scaler, or of the model called on the scaled
    matrix, is the outcome of the request: nothing catches it and no
    response is built. *)
Theorem scaler_and_model_exceptions_propagate
        req w rows model scaler features selected e :
  heap w !! property_data w = Some rows ->
  filter (Satisfies (user_preferences req)) rows <> [] ->
  model_bundle w = mkBundle (Some model) (Some scaler) (Some features) ->
  omapM (select_row features) (filter (Satisfies (user_preferences req)) rows)
  = Return selected ->
  (transform scaler selected = Raise e
   \/ exists X, transform scaler selected = Return X
                /\ match predict_proba model with
                   | Some proba => proba X = Raise e
                   | None => predict model X = Raise e
                   end) ->
  (recommend_properties req w).1 = Raise e.
Proof.
  intros Hpd Hsome Hb Hsel Hfail.
  apply (failed_scoring_outcome req w rows _ Hpd Hsome).
  rewrite <- candidates_filter in Hsel.
  unfold score_rows. rewrite Hb.
  cbn [bundle_model bundle_scaler bundle_features need obind].
  rewrite Hsel. cbn [obind].
  destruct Hfail as [-> | (X & -> & Hcall)]; [reflexivity |]. cbn [obind].
  destruct (predict_proba model) as [proba|]; now rewrite Hcall.
Qed.

(** X4.  With candidates and a bundle that lacks an entry, the [KeyError]
    names the first entry missing in the order the handler reads them:
    model, scaler, features. *)
Theorem first_missing_bundle_entry_is_named req w rows :
  heap w !! property_data w = Some rows ->
  filter (Satisfies (user_preferences req)) rows <> [] ->
  (bundle_model (model_bundle w) = None
   \/ bundle_scaler (model_bundle w) = None
   \/ bundle_features (model_bundle w) = None) ->
  (recommend_properties req w).1
  = Raise (KeyError
             (match bundle_model (model_bundle w), bundle_scaler (model_bundle w) with
              | None, _ => "model"
              | Some _, None => "scaler"
              | Some _, Some _ => "features"
              end)).
Proof.
  intros Hpd Hsome Hmiss.
  apply (failed_scoring_outcome req w rows _ Hpd Hsome).
  unfold score_rows.
  destruct (bundle_model (model_bundle w)); [| reflexivity].
  destruct (bundle_scaler (model_bundle w)); [| reflexivity].
  destruct (bundle_features (model_bundle w)); [| reflexivity].
  destruct Hmiss as [? | [? | ?]]; discriminate.
Qed.

End Failures.

(** ** What the filter reads of a request *)

Lemma same_constraints_candidates p q rows :
  same_constraints p q -> candidates p rows = candidates q rows.
Proof.
  intros (Hmin & Hmax & Hcity & Hbed & Hcom & Hsch & Hpool & Hgar).
  unfold candidates. rewrite Hmin, Hmax, Hbed, Hcom, Hsch, Hgar.
  rewrite (bool_decide_ext _ _ Hpool).
  unfold effective_city in Hcity.
  destruct (truthy_str (city p)) eqn:Hp; destruct (truthy_str (city q)) eqn:Hq.
  - now rewrite Hcity.
  - rewrite Hcity in Hp. discriminate.
  - rewrite <- Hcity in Hq. discriminate.
  - reflexivity.
Qed.

Section Requests.

Context `{PandasSort}.

(** X5.  Two requests with the same [max_results] whose preferences agree
    on what lines 89-97 read are answered alike: [lifestyle_preferences],
    [size_preference] and the required features other than "pool" change
    nothing, and an empty city is as no city. *)
Theorem unread_preferences_change_nothing req1 req2 w rows :
  heap w !! property_data w = Some rows ->
  same_constraints (user_preferences req1) (user_preferences req2) ->
  max_results req1 = max_results req2 ->
  (recommend_properties req1 w).1 = (recommend_properties req2 w).1.
Proof.
  intros Hpd Hsame Hn.
  rewrite !(recommend_properties_outcome _ _ _ Hpd).
  unfold pipeline.
  now rewrite (same_constraints_candidates _ _ rows Hsame), Hn.
Qed.

(** X6.  A budget whose minimum is above its maximum is no error: with a
    table that has rows, the answer is the empty list, status 200, and the
    bundle is not consulted (the outcome is the same for every bundle). *)
Theorem inverted_budget_is_an_empty_success req w rows :
  heap w !! property_data w = Some rows ->
  rows <> [] ->
  budget_max (user_preferences req) < budget_min (user_preferences req) ->
  (recommend_properties req w).1 = Return (mkResponse [])
  /\ respond (recommend_properties req w).1
     = mkHTTP 200 (JsonRecommendations (mkResponse [])).
Proof.
  intros Hpd Hrows Hinv.
  assert (Hnil : candidates (user_preferences req) rows = []).
  { rewrite candidates_satisfies.
    clear Hpd Hrows. induction rows as [|r rows IH]; [reflexivity |].
    cbn [List.filter]. rewrite IH.
    destruct (satisfies (user_preferences req) r) eqn:Hs; [| reflexivity].
    apply satisfies_Satisfies in Hs. destruct Hs as [Hb _]. lia. }
  assert (E : (recommend_properties req w).1 = Return (mkResponse [])).
  { rewrite (recommend_properties_outcome _ _ _ Hpd). unfold pipeline.
    destruct rows; [contradiction |]. cbv zeta. now rewrite Hnil. }
  split; [exact E |]. now rewrite E.
Qed.

(** X7.  After a start-up whose CSV load failed, or loaded a table without
    rows, every request is answered 500 with the detail "No property data
    available", whatever the model load gave, and the state stays as the
    start-up left it. *)
Theorem no_table_after_startup_answers_500 req pkl e :
  let failed := lifespan (Raise e) pkl in
  let header_only := lifespan (Return []) pkl in
  recommend_properties req failed
  = (Raise (HTTPException 500 "No property data available"), failed)
  /\ recommend_properties req header_only
     = (Raise (HTTPException 500 "No property data available"), header_only)
  /\ respond (recommend_properties req failed).1
     = mkHTTP 500 (JsonDetail "No property data available").
Proof.
  cbv zeta.
  assert (E : forall w, heap w !! property_data w = Some [] ->
                        recommend_properties req w
                        = (Raise (HTTPException 500 "No property data available"), w)).
  { intros w Hpd. unfold recommend_properties.
    erewrite bind_Return by reflexivity.
    erewrite bind_Return by (apply df_empty_run; eassumption).
    reflexivity. }
  split; [| split].
  - now apply E.
  - now apply E.
  - now rewrite E.
Qed.

(** X8.  Asking for "pool" keeps, of the rows the other preferences let
    through, exactly those with a pool, in the same order; the other tags
    of the list play no part. *)
Theorem pool_tag_filters_on_has_pool prefs tags w rows :
  heap w !! property_data w = Some rows ->
  "pool" ∈ tags ->
  exists l w',
    preference_filter (with_must_have prefs tags) (property_data w) w
    = (Return l, w')
    /\ heap w' !! l
       = Some (filter (fun r => row_has_pool r = true)
                      (filter (Satisfies (with_must_have prefs [])) rows)).
Proof.
  intros Hpd Hpool.
  destruct (preference_filter_run (with_must_have prefs tags) _ w rows Hpd)
    as (l & w' & E & _ & _ & Hl).
  exists l, w'. split; [exact E |]. rewrite Hl. f_equal.
  rewrite !candidates_filter, list_filter_filter.
  apply list_filter_iff. intros r. unfold Satisfies, city_specified.
  cbn [with_must_have budget_min budget_max city min_bedrooms
       max_commute_time_minutes min_school_rating must_have_features
       min_garage_spaces].
  split.
  - intros (? & ? & ? & ? & ? & Hp & ?). split; [auto |].
    repeat split; try assumption; try tauto.
    all: intros Hin; inversion Hin.
  - intros [Hhas (? & ? & ? & ? & ? & _ & ?)]. repeat split; try assumption; tauto.
Qed.

(** X11.  Rows that do not satisfy the preferences have no influence on the
    answer: two tables with rows whose satisfying rows are the same give
    the same outcome. *)
Theorem rows_outside_the_preferences_do_not_matter req w1 w2 rows1 rows2 :
  heap w1 !! property_data w1 = Some rows1 ->
  heap w2 !! property_data w2 = Some rows2 ->
  model_bundle w1 = model_bundle w2 ->
  rows1 <> [] -> rows2 <> [] ->
  filter (Satisfies (user_preferences req)) rows1
  = filter (Satisfies (user_preferences req)) rows2 ->
  (recommend_properties req w1).1 = (recommend_properties req w2).1.
Proof.
  intros Hpd1 Hpd2 Hb Hr1 Hr2 Hsame. rewrite <- !candidates_filter in Hsame.
  rewrite (recommend_properties_outcome _ _ _ Hpd1).
  rewrite (recommend_properties_outcome _ _ _ Hpd2).
  unfold pipeline. destruct rows1; [contradiction |]. destruct rows2; [contradiction |].
  cbv zeta. now rewrite Hsame, Hb.
Qed.

End Requests.

(** ** Which candidates a response holds *)

Section Selection.

Context `{PandasSort}.

Lemma ranked_all n preds cands :
  length preds = length cands ->
  Z.of_nat (length cands) <= n ->
  ranked n preds cands
  = sort_values quicksort (zip preds (zip_with row_set_score preds cands)).
Proof.
  intros Hlen Hn. unfold ranked, head_rows.
  destruct (Z.leb_spec 0 n); [| lia].
  apply take_ge.
  rewrite (Permutation_length (sort_values_perm quicksort _)).
  rewrite !length_zip_with. lia.
Qed.

Lemma recommend_of_ids (l : list Keyed) :
  property_id <$> (recommend_of <$> l)
  = (fun kr : Keyed => row_property_id kr.2) <$> l.
Proof. rewrite <- list_fmap_compose. reflexivity. Qed.

(** X9.  A request that succeeds with a [max_results] that is not negative
    returns exactly the smaller of [max_results] and the number of rows
    that satisfy the preferences; when [max_results] is at least that
    number, every satisfying row is presented, once. *)
Theorem response_holds_every_candidate_up_to_max_results req w rows resp :
  heap w !! property_data w = Some rows ->
  (recommend_properties req w).1 = Return resp ->
  0 <= max_results req ->
  let survivors := filter (Satisfies (user_preferences req)) rows in
  length (recommendations resp)
  = Nat.min (Z.to_nat (max_results req)) (length survivors)
  /\ (Z.of_nat (length survivors) <= max_results req ->
      property_id <$> recommendations resp ≡ₚ row_property_id <$> survivors).
Proof.
  intros Hpd Hret Hn. cbv zeta. rewrite <- candidates_filter.
  rewrite (recommend_properties_outcome _ _ _ Hpd) in Hret.
  apply pipeline_Return in Hret as [[Hnil ->] | (preds & _ & _ & Hlen & ->)];
    cbn [recommendations].
  - rewrite Hnil. cbn [length fmap list_fmap]. split; [lia | reflexivity].
  - split.
    + rewrite length_fmap, (ranked_length _ _ _ Hlen).
      destruct (Z.leb_spec 0 (max_results req)); [reflexivity | lia].
    + intros Hall. rewrite (ranked_all _ _ _ Hlen Hall), recommend_of_ids.
      rewrite (sort_values_perm quicksort). now rewrite keyed_ids.
Qed.

(** X10.  The rows presented are the best scored ones: the scored
    candidates split into the rows behind the response and the rows left
    out, and no row left out has a model score above that of a row
    presented.  This holds for every [max_results]. *)
Theorem response_holds_the_best_scored_candidates req w rows resp preds :
  heap w !! property_data w = Some rows ->
  (recommend_properties req w).1 = Return resp ->
  score_rows (model_bundle w) (candidates (user_preferences req) rows)
  = Return preds ->
  exists top rest : list Keyed,
    recommendations resp = recommend_of <$> top
    /\ top ++ rest
       ≡ₚ zip preds (zip_with row_set_score preds
                              (candidates (user_preferences req) rows))
    /\ forall a b, a ∈ top -> b ∈ rest -> (b.1 <= a.1)%Q.
Proof.
  intros Hpd Hret Hs.
  rewrite (recommend_properties_outcome _ _ _ Hpd) in Hret.
  apply pipeline_Return in Hret as [[Hnil ->] | (preds' & _ & Hs' & _ & ->)];
    cbn [recommendations].
  - rewrite Hnil. exists [], [].
    split; [reflexivity |]. split; [now destruct preds |].
    intros a b Ha. inversion Ha.
  - rewrite Hs in Hs'. inversion Hs'; subst preds'.
    set (source := zip preds (zip_with row_set_score preds
                                (candidates (user_preferences req) rows))).
    unfold ranked. fold source.
    destruct (head_rows_take (max_results req) (sort_values quicksort source))
      as [m ->].
    exists (take m (sort_values quicksort source)),
           (drop m (sort_values quicksort source)).
    split; [reflexivity |]. split.
    + rewrite take_drop. apply sort_values_perm.
    + intros a b Ha Hb.
      eapply (StronglySorted_app_1_elem_of desc); [| exact Ha | exact Hb].
      rewrite take_drop. apply sort_values_sorted.
Qed.

Lemma serve_run reqs : forall w rows,
  heap w !! property_data w = Some rows ->
  (serve reqs w).1 = (fun req => pipeline rows (model_bundle w) req) <$> reqs
  /\ heap (serve reqs w).2 !! property_data (serve reqs w).2 = Some rows
  /\ model_bundle (serve reqs w).2 = model_bundle w.
Proof.
  induction reqs as [|req reqs IH]; intros w rows Hpd.
  - cbn. auto.
  - cbn [serve fst snd fmap list_fmap].
    destruct (recommend_properties_run req w rows Hpd) as (w' & E & G).
    rewrite E. cbn [fst snd].
    assert (Hpd' : heap w' !! property_data w' = Some rows).
    { rewrite (grows_property_data _ _ _ G). eapply grows_lookup; eassumption. }
    destruct (IH w' rows Hpd') as (Ho & Hh & Hb).
    rewrite Ho, Hb, (grows_model_bundle _ _ _ G). auto.
Qed.

(** X12.  Requests served one after the other are answered as if each were
    the first: the outcome of every request of the sequence is the one it
    gets in the state of the start, and after the sequence [property_data]
    still names the same rows and the bundle is the same. *)
Theorem serving_keeps_the_table_and_the_answers reqs w rows :
  heap w !! property_data w = Some rows ->
  (serve reqs w).1 = (fun req => (recommend_properties req w).1) <$> reqs
  /\ heap (serve reqs w).2 !! property_data (serve reqs w).2 = Some rows
  /\ model_bundle (serve reqs w).2 = model_bundle w.
Proof.
  intros Hpd. destruct (serve_run reqs w rows Hpd) as (Ho & Hh & Hb).
  split; [| auto]. rewrite Ho. apply list_fmap_ext.
  intros i req _. now rewrite (recommend_properties_outcome _ _ _ Hpd).
Qed.

End Selection.

(** ** The order of a response *)


(** ** Tightening the preferences *)

Lemma stricter_Satisfies p q r : stricter p q -> Satisfies q r -> Satisfies p r.
Proof.
  intros (? & ? & ? & ? & ? & Hcity & Hpool & ?) ((? & ?) & ? & ? & ? & Hc & Hp & ?).
  repeat split; try lia.
  - intros Hspec. pose proof (Hcity Hspec) as E.
    rewrite <- E. apply Hc. unfold city_specified in *. now rewrite E.
  - auto.
Qed.

(** X13.  Tightening the preferences never adds a candidate: the table the
    filter leaves for the stricter preferences is a sublist, in the same
    order, of the table it leaves for the looser ones. *)
Theorem stricter_preferences_leave_a_sublist p q w rows :
  heap w !! property_data w = Some rows ->
  stricter p q ->
  exists lp wp lq wq dfp dfq,
    preference_filter p (property_data w) w = (Return lp, wp)
    /\ heap wp !! lp = Some dfp
    /\ preference_filter q (property_data w) w = (Return lq, wq)
    /\ heap wq !! lq = Some dfq
    /\ dfq `sublist_of` dfp.
Proof.
  intros Hpd Hstrict.
  destruct (preference_filter_run p _ w rows Hpd) as (lp & wp & Ep & _ & _ & Hp).
  destruct (preference_filter_run q _ w rows Hpd) as (lq & wq & Eq & _ & _ & Hq).
  exists lp, wp, lq, wq, (candidates p rows), (candidates q rows).
  repeat split; try assumption.
  rewrite !candidates_filter.
  replace (filter (Satisfies q) rows)
    with (filter (Satisfies q) (filter (Satisfies p) rows)).
  - apply sublist_filter.
  - rewrite list_filter_filter. apply list_filter_iff.
    intros r. split; [tauto |]. intros Hs. split; [exact Hs |].
    eapply stricter_Satisfies; eassumption.
Qed.

(** ** The further properties on the sample tables *)

Lemma single_class_probabilities_are_an_IndexError_witness :
  (@recommend_properties InsertionSort.stable_sort Sample.request
     (lifespan (Return Sample.table)
               (Return (Sample.bundle_of Faulty.one_class)))).1
  = Raise IndexError.
Proof.
  refine (@single_class_probabilities_are_an_IndexError InsertionSort.stable_sort
            Sample.request
            (lifespan (Return Sample.table)
                      (Return (Sample.bundle_of Faulty.one_class)))
            Sample.table Faulty.one_class Sample.scaler ["sqft"; "bedrooms"]
            [[VInt 1500; VInt 3]; [VInt 2000; VInt 4]]
            [[inject_Z 1500; inject_Z 3]; [inject_Z 2000; inject_Z 4]]
            (fun X => Return ((fun _ => [1%Q]) <$> X))
            [[1%Q]; [1%Q]]
            eq_refl _ eq_refl _ _ eq_refl _ _).
  - vm_compute. discriminate.
  - vm_compute. reflexivity.
  - vm_compute. reflexivity.
  - vm_compute. reflexivity.
  - apply Exists_cons_hd. reflexivity.
Defined.

Lemma scaler_and_model_exceptions_propagate_witness :
  (@recommend_properties InsertionSort.stable_sort Sample.request
     (lifespan (Return Sample.table)
               (Return (mkBundle (Some Sample.classifier)
                                 (Some Faulty.rejecting_scaler)
                                 (Some ["sqft"; "bedrooms"]))))).1
  = Raise ValueError.
Proof.
  refine (@scaler_and_model_exceptions_propagate InsertionSort.stable_sort
            Sample.request
            (lifespan (Return Sample.table)
                      (Return (mkBundle (Some Sample.classifier)
                                        (Some Faulty.rejecting_scaler)
                                        (Some ["sqft"; "bedrooms"]))))
            Sample.table Sample.classifier Faulty.rejecting_scaler
            ["sqft"; "bedrooms"]
            [[VInt 1500; VInt 3]; [VInt 2000; VInt 4]] ValueError
            eq_refl _ eq_refl _ _).
  - vm_compute. discriminate.
  - vm_compute. reflexivity.
  - left. reflexivity.
Defined.

Lemma first_missing_bundle_entry_is_named_witness :
  (@recommend_properties InsertionSort.stable_sort Sample.request
     (lifespan (Return Sample.table)
               (Return (mkBundle (Some Sample.classifier) None
                                 (Some ["sqft"; "bedrooms"]))))).1
  = Raise (KeyError "scaler").
Proof.
  refine (@first_missing_bundle_entry_is_named InsertionSort.stable_sort
            Sample.request
            (lifespan (Return Sample.table)
                      (Return (mkBundle (Some Sample.classifier) None
                                        (Some ["sqft"; "bedrooms"]))))
            Sample.table eq_refl _ _).
  - vm_compute. discriminate.
  - right. left. reflexivity.
Defined.

Lemma unread_preferences_change_nothing_witness :
  (@recommend_properties InsertionSort.stable_sort Sample.request
     (Sample.world Sample.classifier)).1
  = (@recommend_properties InsertionSort.stable_sort
       (mkRequest (mkPrefs 200000 1000000 (Some "") 1 60 1 ["garage"]
                           ["quiet"] "large" 0) 3)
       (Sample.world Sample.classifier)).1.
Proof.
  refine (@unread_preferences_change_nothing InsertionSort.stable_sort
            Sample.request
            (mkRequest (mkPrefs 200000 1000000 (Some "") 1 60 1 ["garage"]
                                ["quiet"] "large" 0) 3)
            (Sample.world Sample.classifier) Sample.table eq_refl _ eq_refl).
  repeat split; cbn; intros Hin.
  - inversion Hin.
  - apply list_elem_of_singleton in Hin. discriminate.
Defined.

Lemma inverted_budget_is_an_empty_success_witness :
  (@recommend_properties InsertionSort.stable_sort
     (mkRequest (mkPrefs 900000 300000 None 1 60 1 [] [] "any" 0) 3)
     (lifespan (Return Sample.table) (Raise ValueError))).1
  = Return (mkResponse [])
  /\ respond (@recommend_properties InsertionSort.stable_sort
                (mkRequest (mkPrefs 900000 300000 None 1 60 1 [] [] "any" 0) 3)
                (lifespan (Return Sample.table) (Raise ValueError))).1
     = mkHTTP 200 (JsonRecommendations (mkResponse [])).
Proof.
  refine (@inverted_budget_is_an_empty_success InsertionSort.stable_sort
            (mkRequest (mkPrefs 900000 300000 None 1 60 1 [] [] "any" 0) 3)
            (lifespan (Return Sample.table) (Raise ValueError))
            Sample.table eq_refl _ _).
  - discriminate.
  - cbn. lia.
Defined.

Lemma pool_tag_filters_on_has_pool_witness :
  exists l w',
    preference_filter (with_must_have default_preferences ["garage"; "pool"])
                      (property_data (Sample.world Sample.classifier))
                      (Sample.world Sample.classifier)
    = (Return l, w')
    /\ heap w' !! l
       = Some (filter (fun r => row_has_pool r = true)
                      (filter (Satisfies (with_must_have default_preferences []))
                              Sample.table)).
Proof.
  refine (pool_tag_filters_on_has_pool default_preferences ["garage"; "pool"]
            (Sample.world Sample.classifier) Sample.table eq_refl _).
  apply list_elem_of_further, list_elem_of_here.
Defined.

Lemma response_holds_every_candidate_up_to_max_results_witness :
  exists resp,
    (@recommend_properties InsertionSort.stable_sort Sample.request
       (Sample.world Sample.classifier)).1 = Return resp
    /\ length (recommendations resp)
       = Nat.min (Z.to_nat 3)
                 (length (filter (Satisfies default_preferences) Sample.table))
    /\ (Z.of_nat (length (filter (Satisfies default_preferences) Sample.table))
        <= 3 ->
        property_id <$> recommendations resp
        ≡ₚ row_property_id <$> filter (Satisfies default_preferences) Sample.table).
Proof.
  eexists. split; [vm_compute; reflexivity |].
  refine (@response_holds_every_candidate_up_to_max_results
            InsertionSort.stable_sort Sample.request
            (Sample.world Sample.classifier) Sample.table _ eq_refl _ _).
  - vm_compute. reflexivity.
  - cbn. lia.
Defined.

Lemma response_holds_the_best_scored_candidates_witness :
  exists resp (top rest : list Keyed),
    (@recommend_properties InsertionSort.stable_sort
       (mkRequest default_preferences 1)
       (Sample.world Sample.regressor)).1 = Return resp
    /\ recommendations resp = recommend_of <$> top
    /\ top ++ rest
       ≡ₚ zip [(450000 # 1)%Q; (600000 # 1)%Q]
              (zip_with row_set_score [(450000 # 1)%Q; (600000 # 1)%Q]
                        (candidates default_preferences Sample.table))
    /\ forall a b, a ∈ top -> b ∈ rest -> (b.1 <= a.1)%Q.
Proof.
  eexists.
  destruct (@response_holds_the_best_scored_candidates InsertionSort.stable_sort
              (mkRequest default_preferences 1)
              (Sample.world Sample.regressor) Sample.table _
              [(450000 # 1)%Q; (600000 # 1)%Q] eq_refl
              ltac:(vm_compute; reflexivity) ltac:(vm_compute; reflexivity))
    as (top & rest & Hrecs & Hperm & Hbest).
  exists top, rest. split; [vm_compute; reflexivity |]. auto.
Defined.

Lemma rows_outside_the_preferences_do_not_matter_witness :
  (@recommend_properties InsertionSort.stable_sort Sample.request
     (Sample.world Sample.classifier)).1
  = (@recommend_properties InsertionSort.stable_sort Sample.request
       (lifespan (Return [Sample.denver_a; Sample.denver_b])
                 (Return (Sample.bundle_of Sample.classifier)))).1.
Proof.
  refine (@rows_outside_the_preferences_do_not_matter InsertionSort.stable_sort
            Sample.request (Sample.world Sample.classifier)
            (lifespan (Return [Sample.denver_a; Sample.denver_b])
                      (Return (Sample.bundle_of Sample.classifier)))
            Sample.table [Sample.denver_a; Sample.denver_b]
            eq_refl eq_refl eq_refl _ _ _).
  - discriminate.
  - discriminate.
  - vm_compute. reflexivity.
Defined.

Lemma serving_keeps_the_table_and_the_answers_witness :
  (@serve InsertionSort.stable_sort
     [Sample.request; mkRequest default_preferences 1]
     (Sample.world Sample.classifier)).1
  = (fun req => (@recommend_properties InsertionSort.stable_sort req
                   (Sample.world Sample.classifier)).1)
      <$> [Sample.request; mkRequest default_preferences 1]
  /\ heap (@serve InsertionSort.stable_sort
             [Sample.request; mkRequest default_preferences 1]
             (Sample.world Sample.classifier)).2
     !! property_data (@serve InsertionSort.stable_sort
                         [Sample.request; mkRequest default_preferences 1]
                         (Sample.world Sample.classifier)).2
     = Some Sample.table
  /\ model_bundle (@serve InsertionSort.stable_sort
                     [Sample.request; mkRequest default_preferences 1]
                     (Sample.world Sample.classifier)).2
     = model_bundle (Sample.world Sample.classifier).
Proof.
  exact (@serving_keeps_the_table_and_the_answers InsertionSort.stable_sort
           [Sample.request; mkRequest default_preferences 1]
           (Sample.world Sample.classifier) Sample.table eq_refl).
Defined.

Lemma stricter_preferences_leave_a_sublist_witness :
  exists lp wp lq wq dfp dfq,
    preference_filter default_preferences
                      (property_data (Sample.world Sample.classifier))
                      (Sample.world Sample.classifier) = (Return lp, wp)
    /\ heap wp !! lp = Some dfp
    /\ preference_filter (mkPrefs 300000 900000 (Some "Denver") 4 45 7 ["pool"]
                                  [] "medium" 1)
                         (property_data (Sample.world Sample.classifier))
                         (Sample.world Sample.classifier) = (Return lq, wq)
    /\ heap wq !! lq = Some dfq
    /\ dfq `sublist_of` dfp.
Proof.
  refine (stricter_preferences_leave_a_sublist default_preferences
            (mkPrefs 300000 900000 (Some "Denver") 4 45 7 ["pool"] [] "medium" 1)
            (Sample.world Sample.classifier) Sample.table eq_refl _).
  unfold stricter. cbn. repeat split; try lia.
  all: intros Hx; first [contradiction | inversion Hx].
Defined.

